(** * The task board of [src/App.tsx]: state updates and their properties

    The application keeps one [BoardData] value in React state and changes it
    from three event handlers: [handleModalSave] (create and edit),
    [confirmDelete] and [onDragEnd].  This file embeds those handlers, the
    JavaScript built-ins they rely on ([String.prototype.trim],
    [Array.prototype.splice], object spread, property access on [undefined])
    and proves what the handlers do to the board.

    [src/App.tsx] holds two revisions of the component.  They differ in the
    presentational fields of a column (the later one adds [border], [shadow]
    and [gradient]) and in markup; the handlers are the same text.  The
    embedding follows the first revision. *)

From Stdlib Require Import Ascii String ZArith.
From stdpp Require Import gmap strings list fin_maps pretty.

Local Open Scope string_scope.
Local Open Scope list_scope.

(* [naive_solver] clears hypotheses it has already consumed. *)
#[local] Set Warnings "-clear-no-such-hyp".

(** ** JavaScript values used by the handlers *)

(** A JavaScript string is modelled by a Rocq string whose characters are its
    code units; the model covers the code units below 256. *)

(** White space and line terminators of ECMAScript among those code units:
    TAB, LF, VT, FF, CR, SP and NBSP. *)
Definition is_white_space (a : ascii) : bool :=
  let n := nat_of_ascii a in
  (n =? 9)%nat || (n =? 10)%nat || (n =? 11)%nat || (n =? 12)%nat
  || (n =? 13)%nat || (n =? 32)%nat || (n =? 160)%nat.

Fixpoint trimStart (s : string) : string :=
  match s with
  | EmptyString => EmptyString
  | String a s' => if is_white_space a then trimStart s' else s
  end.

Fixpoint trimEnd (s : string) : string :=
  match s with
  | EmptyString => EmptyString
  | String a s' =>
      let r := trimEnd s' in
      if is_white_space a && String.eqb r "" then "" else String a r
  end.

(** [String.prototype.trim]. *)
Definition trim (s : string) : string := trimEnd (trimStart s).

(** The only exception the handlers can raise: reading a property of
    [undefined]. *)
Inductive exn : Set := TypeError.

Inductive result (A : Type) : Type :=
  | Ok (a : A)
  | Throw (e : exn).
Arguments Ok {A} a.
Arguments Throw {A} e.

Definition result_bind {A B} (r : result A) (k : A → result B) : result B :=
  match r with
  | Ok a => k a
  | Throw e => Throw e
  end.

Definition result_map {A B} (f : A → B) (r : result A) : result B :=
  result_bind r (λ a, Ok (f a)).

Notation "'let!' x ':=' r 'in' k" := (result_bind r (λ x, k))
  (at level 10, x name, r at level 100, k at level 200,
   format "'let!'  x  :=  r  'in'  '/' k").

(** [o.p] where [o] is the outcome of a lookup: a [TypeError] when the lookup
    found nothing. *)
Definition defined {A} (o : option A) : result A :=
  match o with
  | Some a => Ok a
  | None => Throw TypeError
  end.

(** [Array.prototype.splice(start, deleteCount, ...items)], as the array it
    leaves behind.  A negative [start] counts from the end, and both numbers
    are clamped to the array. *)
Definition splice {A} (l : list A) (start deleteCount : Z) (items : list A)
  : list A :=
  let len := Z.of_nat (length l) in
  let actualStart :=
    if (start <? 0)%Z then Z.max (len + start) 0 else Z.min start len in
  let actualDeleteCount := Z.min (Z.max deleteCount 0) (len - actualStart) in
  take (Z.to_nat actualStart) l ++ items
    ++ drop (Z.to_nat (actualStart + actualDeleteCount)) l.

(** [a[i]] for a number [i]: [undefined] outside the array. *)
Definition at_index {A} (l : list A) (i : Z) : option A :=
  if (i <? 0)%Z then None else l !! Z.to_nat i.

(** ** Data model *)

Module Task.
(** A task object.  Objects made by [handleModalSave] for a new task have
    both properties; the edit path spreads [prev.tasks[id]], so the [id]
    property is there only if the entry was. *)
Record t : Type := mk { id : option string; content : string }.
End Task.

Module Column.
Record t : Type := mk {
  id : string;
  title : string;
  color : string;
  accent : string;
  taskIds : list string
}.

(** [{ ...col, taskIds: ids }] *)
Definition with_taskIds (col : t) (ids : list string) : t :=
  {| id := id col; title := title col; color := color col;
     accent := accent col; taskIds := ids |}.
End Column.

(** The members of [Object.prototype].  A plain object has them all as
    inherited properties: reading one that the object does not have itself
    gives a function (for [__proto__], the prototype object), not
    [undefined].  None of these values has an [id], [content] or [taskIds]
    property.  Where a handler goes on to [columns[k].taskIds] this changes
    nothing: [taskIds] is [undefined] there as well, and spreading it,
    [.filter], [.length] or [Array.from] raise the same [TypeError] as on a
    missing column.  It matters where [tasks[k]] is read for its [id] or
    [content], which are then [undefined] without any exception. *)
Definition Object_prototype : list string :=
  [ "constructor"; "__defineGetter__"; "__defineSetter__"; "hasOwnProperty";
    "__lookupGetter__"; "__lookupSetter__"; "isPrototypeOf";
    "propertyIsEnumerable"; "toString"; "valueOf"; "__proto__";
    "toLocaleString" ].

Definition inherited (k : string) : bool := bool_decide (k ∈ Object_prototype).

(** What [tasks[k]] evaluates to. *)
Inductive task_read : Type :=
  | OwnTask (task : Task.t)
  | PrototypeMember
  | NoProperty.

Definition read_task (tasks : gmap string Task.t) (k : string) : task_read :=
  match tasks !! k with
  | Some task => OwnTask task
  | None => if inherited k then PrototypeMember else NoProperty
  end.

Record BoardData : Type := mkBoard {
  tasks : gmap string Task.t;
  columns : gmap string Column.t;
  columnOrder : list string
}.

(** [{ ...prev, tasks: newTasks, columns: newColumns }] and its two shorter
    forms. *)
Definition with_tasks_columns (prev : BoardData)
    (newTasks : gmap string Task.t) (newColumns : gmap string Column.t)
  : BoardData :=
  {| tasks := newTasks; columns := newColumns;
     columnOrder := columnOrder prev |}.

Definition with_tasks (prev : BoardData) (newTasks : gmap string Task.t)
  : BoardData :=
  with_tasks_columns prev newTasks (columns prev).

Definition with_columns (prev : BoardData)
    (newColumns : gmap string Column.t) : BoardData :=
  with_tasks_columns prev (tasks prev) newColumns.

Module DefaultColumn.
Record t : Type := mk {
  id : string; title : string; color : string; accent : string
}.
End DefaultColumn.

Definition DEFAULT_COLUMNS : list DefaultColumn.t :=
  [ DefaultColumn.mk "todo" "To Do" "bg-blue-100" "bg-blue-500";
    DefaultColumn.mk "inprogress" "In Progress" "bg-yellow-100"
      "bg-yellow-500";
    DefaultColumn.mk "done" "Done" "bg-green-100" "bg-green-500" ].

(** [getInitialData]; [saved] is the parsed content of the storage entry. *)
Definition getInitialData (saved : option BoardData) : BoardData :=
  match saved with
  | Some b => b
  | None =>
      let columns :=
        foldl (λ (cols : gmap string Column.t) col,
                 <[DefaultColumn.id col :=
                     Column.mk (DefaultColumn.id col) (DefaultColumn.title col)
                       (DefaultColumn.color col) (DefaultColumn.accent col) []]>
                   cols)
          ∅ DEFAULT_COLUMNS in
      {| tasks := ∅; columns := columns;
         columnOrder := DefaultColumn.id <$> DEFAULT_COLUMNS |}
  end.

(** The board of a first start: nothing saved. *)
Definition initial_board : BoardData := getInitialData None.

(** ** Component state and handlers *)

Module ModalTask.
(** [content] is [undefined] after [openEditTaskModal] has read it off a
    member of [Object.prototype]. *)
Record t : Type := mk {
  id : option string; content : option string; columnId : string
}.
End ModalTask.

Module Deleting.
Record t : Type := mk { taskId : string; columnId : string }.
End Deleting.

Record AppState : Type := mkApp {
  board : BoardData;
  showModal : bool;
  modalTask : option ModalTask.t;
  deleting : option Deleting.t
}.

(** [setBoard(updater)]: the updater runs on the current board; an exception
    in it leaves no new state. *)
Definition setBoard (updater : BoardData → result BoardData) (st : AppState)
  : result AppState :=
  let! b := updater (board st) in
  Ok {| board := b; showModal := showModal st; modalTask := modalTask st;
        deleting := deleting st |}.

Definition openNewTaskModal (columnId : string) (st : AppState) : AppState :=
  {| board := board st; showModal := true;
     modalTask := Some (ModalTask.mk None (Some "") columnId);
     deleting := deleting st |}.

(** [board.tasks[taskId].content]: the content of the task; [undefined] if
    [taskId] is no task but names a member of [Object.prototype]; a
    [TypeError] if [tasks[taskId]] is [undefined]. *)
Definition openEditTaskModal (taskId columnId : string) (st : AppState)
  : result AppState :=
  let! content :=
    match read_task (tasks (board st)) taskId with
    | OwnTask task => Ok (Some (Task.content task))
    | PrototypeMember => Ok None
    | NoProperty => Throw TypeError
    end in
  Ok {| board := board st; showModal := true;
        modalTask := Some (ModalTask.mk (Some taskId) content columnId);
        deleting := deleting st |}.

(** The text area's [onChange]. *)
Definition onChange (value : string) (st : AppState) : AppState :=
  {| board := board st; showModal := showModal st;
     modalTask :=
       match modalTask st with
       | Some prev =>
           Some (ModalTask.mk (ModalTask.id prev) (Some value)
                   (ModalTask.columnId prev))
       | None => None
       end;
     deleting := deleting st |}.

Definition closeModal (st : AppState) : AppState :=
  {| board := board st; showModal := false; modalTask := None;
     deleting := deleting st |}.

(** [if (modalTask.id)]: an absent or empty id is falsy. *)
Definition truthy (o : option string) : option string :=
  match o with
  | Some s => if String.eqb s "" then None else Some s
  | None => None
  end.

(** The updater of the edit branch. *)
Definition edit_updater (id content : string) (prev : BoardData)
  : result BoardData :=
  Ok (with_tasks prev
        (<[id := Task.mk (tasks prev !! id ≫= Task.id) content]>
           (tasks prev))).

(** The updater of the new-task branch. *)
Definition create_updater (id content columnId : string) (prev : BoardData)
  : result BoardData :=
  let newTasks := <[id := Task.mk (Some id) content]> (tasks prev) in
  let! col := defined (columns prev !! columnId) in
  let newColumns :=
    <[columnId := Column.with_taskIds col (id :: Column.taskIds col)]>
      (columns prev) in
  Ok (with_tasks_columns prev newTasks newColumns).

(** ["task-" + Date.now()]; [now] is the clock reading in milliseconds. *)
Definition new_task_id (now : Z) : string := "task-" +:+ pretty now.

Definition handleModalSave (now : Z) (st : AppState) : result AppState :=
  match modalTask st with
  | None => Ok st
  | Some mt =>
      let! content := defined (ModalTask.content mt) in
      if String.eqb (trim content) "" then Ok st
      else
        let! st' := match truthy (ModalTask.id mt) with
              | Some id => setBoard (edit_updater id content) st
              | None =>
                  let id := new_task_id now in
                  setBoard (create_updater id content
                              (ModalTask.columnId mt)) st
              end in
        Ok (closeModal st')
  end.

Definition handleDeleteTask (taskId columnId : string) (st : AppState)
  : AppState :=
  {| board := board st; showModal := showModal st; modalTask := modalTask st;
     deleting := Some (Deleting.mk taskId columnId) |}.

Definition delete_updater (taskId columnId : string) (prev : BoardData)
  : result BoardData :=
  let newTasks := delete taskId (tasks prev) in
  let! col := defined (columns prev !! columnId) in
  let newColumns :=
    <[columnId :=
        Column.with_taskIds col
          (filter (λ id, id ≠ taskId) (Column.taskIds col))]>
      (columns prev) in
  Ok (with_tasks_columns prev newTasks newColumns).

Definition setDeleting (d : option Deleting.t) (st : AppState) : AppState :=
  {| board := board st; showModal := showModal st; modalTask := modalTask st;
     deleting := d |}.

Definition confirmDelete (st : AppState) : result AppState :=
  match deleting st with
  | None => Ok st
  | Some d =>
      let! st' :=
        setBoard (delete_updater (Deleting.taskId d) (Deleting.columnId d)) st
      in
      Ok (setDeleting None st')
  end.

Module DraggableLocation.
Record t : Type := mk { droppableId : string; index : Z }.
End DraggableLocation.

Module DropResult.
Record t : Type := mk {
  draggableId : string;
  source : DraggableLocation.t;
  destination : option DraggableLocation.t
}.
End DropResult.

(** [start === finish].  Column objects are compared by identity.  Every
    column object of a board is made by its own object literal (or by
    [JSON.parse]) and stored under one key, so two lookups give the same
    object exactly when they use the same key; two failed lookups give
    [undefined] twice, which is identical to itself.  (Lookups that find no
    column end in a [TypeError] in either branch, so which branch is taken
    for them does not show.) *)
Definition same_column (columns : gmap string Column.t) (k1 k2 : string)
  : bool :=
  match columns !! k1, columns !! k2 with
  | Some _, Some _ => bool_decide (k1 = k2)
  | None, None => true
  | _, _ => false
  end.

Definition drag_updater (draggableId : string)
    (source destination : DraggableLocation.t) (prev : BoardData)
  : result BoardData :=
  let start := columns prev !! DraggableLocation.droppableId source in
  let finish := columns prev !! DraggableLocation.droppableId destination in
  if same_column (columns prev) (DraggableLocation.droppableId source)
       (DraggableLocation.droppableId destination)
  then
    let! start := defined start in
    let newTaskIds := Column.taskIds start in
    let newTaskIds := splice newTaskIds (DraggableLocation.index source) 1 [] in
    let newTaskIds :=
      splice newTaskIds (DraggableLocation.index destination) 0 [draggableId] in
    let newColumn := Column.with_taskIds start newTaskIds in
    Ok (with_columns prev (<[Column.id newColumn := newColumn]> (columns prev)))
  else
    let! start := defined start in
    let startTaskIds :=
      splice (Column.taskIds start) (DraggableLocation.index source) 1 [] in
    let newStart := Column.with_taskIds start startTaskIds in
    let! finish := defined finish in
    let finishTaskIds :=
      splice (Column.taskIds finish) (DraggableLocation.index destination) 0
        [draggableId] in
    let newFinish := Column.with_taskIds finish finishTaskIds in
    Ok (with_columns prev
          (<[Column.id newFinish := newFinish]>
             (<[Column.id newStart := newStart]> (columns prev)))).

Definition onDragEnd (res : DropResult.t) (st : AppState)
  : result AppState :=
  match DropResult.destination res with
  | None => Ok st
  | Some destination =>
      let source := DropResult.source res in
      if bool_decide
           (DraggableLocation.droppableId destination
              = DraggableLocation.droppableId source
            ∧ DraggableLocation.index destination
              = DraggableLocation.index source)
      then Ok st
      else setBoard (drag_updater (DropResult.draggableId res) source
                       destination) st
  end.

(** ** The four operations of the board

    Each operation of the board's interface is one handler run on the state
    the user interface has when the handler fires; the result is the board of
    the state the handler leaves. *)

Definition idle (b : BoardData) : AppState :=
  {| board := b; showModal := false; modalTask := None; deleting := None |}.

(** The state while the modal shows [mt]. *)
Definition editing (b : BoardData) (mt : ModalTask.t) : AppState :=
  {| board := b; showModal := true; modalTask := Some mt; deleting := None |}.

(** Save in the modal opened by [openNewTaskModal columnId], with [content]
    typed in. *)
Definition createTask (b : BoardData) (columnId content : string) (now : Z)
  : result BoardData :=
  result_map board
    (handleModalSave now
       (editing b (ModalTask.mk None (Some content) columnId))).

(** Save in the modal opened by [openEditTaskModal taskId columnId], with
    [newContent] typed in.  [columnId] and [now] are read only when [taskId]
    is falsy. *)
Definition editTask (b : BoardData) (taskId newContent : string)
    (columnId : string) (now : Z) : result BoardData :=
  result_map board
    (handleModalSave now
       (editing b (ModalTask.mk (Some taskId) (Some newContent) columnId))).

(** Confirm in the dialog opened by [handleDeleteTask taskId columnId]. *)
Definition deleteTask (b : BoardData) (taskId columnId : string)
  : result BoardData :=
  result_map board (confirmDelete (handleDeleteTask taskId columnId (idle b))).

(** A drop reported by the drag library. *)
Definition moveTask (b : BoardData) (taskId : string)
    (sourceColumnId : string) (sourceIndex : Z)
    (destColumnId : string) (destIndex : Z) : result BoardData :=
  result_map board
    (onDragEnd
       (DropResult.mk taskId
          (DraggableLocation.mk sourceColumnId sourceIndex)
          (Some (DraggableLocation.mk destColumnId destIndex)))
       (idle b)).

(** A run of operations: the board after all of them, or the first exception. *)
Inductive op : Type :=
  | CreateTask (columnId content : string) (now : Z)
  | EditTask (taskId newContent columnId : string) (now : Z)
  | DeleteTask (taskId columnId : string)
  | MoveTask (taskId sourceColumnId : string) (sourceIndex : Z)
      (destColumnId : string) (destIndex : Z).

Definition apply_op (b : BoardData) (o : op) : result BoardData :=
  match o with
  | CreateTask columnId content now => createTask b columnId content now
  | EditTask taskId newContent columnId now =>
      editTask b taskId newContent columnId now
  | DeleteTask taskId columnId => deleteTask b taskId columnId
  | MoveTask taskId s si d di => moveTask b taskId s si d di
  end.

Fixpoint run (b : BoardData) (ops : list op) : result BoardData :=
  match ops with
  | [] => Ok b
  | o :: ops' => let! b' := apply_op b o in run b' ops'
  end.

(** ** The data-model invariants, in the specification's words *)

(** Number of times [t] is listed in [l]. *)
Definition occurrences (t : string) (l : list string) : nat :=
  length (filter (λ x, x = t) l).

(** 1. Every id in every column's [taskIds] is a key of [tasks]. *)
Definition invariant1 (b : BoardData) : Prop :=
  ∀ k col t,
    columns b !! k = Some col → t ∈ Column.taskIds col →
    is_Some (tasks b !! t).

(** 2. Every key of [tasks] is listed by exactly one column, once. *)
Definition invariant2 (b : BoardData) : Prop :=
  ∀ t, is_Some (tasks b !! t) →
    ∃ k col,
      columns b !! k = Some col
      ∧ occurrences t (Column.taskIds col) = 1%nat
      ∧ ∀ k' col', columns b !! k' = Some col' →
                   t ∈ Column.taskIds col' → k' = k.

(** 3. [columnOrder] is a permutation of the keys of [columns], without
    duplicates. *)
Definition invariant3 (b : BoardData) : Prop :=
  NoDup (columnOrder b) ∧ columnOrder b ≡ₚ elements (dom (columns b)).

Definition invariants (b : BoardData) : Prop :=
  invariant1 b ∧ invariant2 b ∧ invariant3 b.

(** Two facts the data model takes for granted and the handlers rely on:
    [columns] files each column under its own [id] ([onDragEnd] writes a
    column back under [newColumn.id]), and no task has the empty id (which
    [handleModalSave] would take for "no id"). *)
Definition column_ids_ok (b : BoardData) : Prop :=
  map_Forall (λ k col, Column.id col = k) (columns b).

Definition task_ids_ok (b : BoardData) : Prop := tasks b !! "" = None.

(** ** Preconditions of the operations, as the specification gives them *)

(** Column [k] of [cols] lists task [t]. *)
Definition listed (cols : gmap string Column.t) (t k : string) : Prop :=
  ∃ col, cols !! k = Some col ∧ t ∈ Column.taskIds col.

Definition task_in_column (b : BoardData) (taskId columnId : string) : Prop :=
  listed (columns b) taskId columnId.

Definition valid_op (b : BoardData) (o : op) : Prop :=
  match o with
  | CreateTask columnId content _ =>
      is_Some (columns b !! columnId) ∧ trim content ≠ ""
  | EditTask taskId newContent _ _ =>
      is_Some (tasks b !! taskId) ∧ trim newContent ≠ ""
  | DeleteTask taskId columnId =>
      is_Some (tasks b !! taskId) ∧ task_in_column b taskId columnId
  | MoveTask taskId s si d di =>
      (∃ col, columns b !! s = Some col
              ∧ at_index (Column.taskIds col) si = Some taskId)
      ∧ (∃ col, columns b !! d = Some col
                ∧ (0 ≤ di ≤ Z.of_nat (length (Column.taskIds col)))%Z)
  end.

(** The id a creation is about to use is not taken. *)
Definition fresh_op (b : BoardData) (o : op) : Prop :=
  match o with
  | CreateTask _ _ now => tasks b !! new_task_id now = None
  | _ => True
  end.

(** [steps P b ops b']: running [ops] from [b] ends in [b'], and every
    operation satisfied [P] on the board it ran on. *)
Inductive steps (P : BoardData → op → Prop)
  : BoardData → list op → BoardData → Prop :=
  | steps_nil b : steps P b [] b
  | steps_snoc b ops b' o b'' :
      steps P b ops b' → P b' o → apply_op b' o = Ok b'' →
      steps P b (ops ++ [o]) b''.

(** ** List operations, in the specification's words *)

(** Remove the element at position [i]. *)
Definition remove_at {A} (i : nat) (l : list A) : list A :=
  take i l ++ drop (S i) l.

(** Insert [x] so that it sits at position [i]; past the end, append. *)
Definition insert_at {A} (i : nat) (x : A) (l : list A) : list A :=
  take i l ++ x :: drop i l.

(** ** Boards used in examples *)

(** The default board with the given task ids filed in its three columns;
    each task's content is its id. *)
Definition example_board (todo inprogress done : list string) : BoardData :=
  let fill k ids (cols : gmap string Column.t) :=
    alter (λ col, Column.with_taskIds col ids) k cols in
  {| tasks :=
       list_to_map
         ((λ id, (id, Task.mk (Some id) id)) <$> (todo ++ inprogress ++ done));
     columns :=
       fill "todo" todo
         (fill "inprogress" inprogress
            (fill "done" done (columns initial_board)));
     columnOrder := columnOrder initial_board |}.

(** The board of the same-column example: [todo] holds [a, b, c]. *)
Definition board_abc : BoardData := example_board ["a"; "b"; "c"] [] [].

(** The board of the cross-column example: [todo] holds [a, b], [done]
    holds [c]. *)
Definition board_ab_c : BoardData := example_board ["a"; "b"] [] ["c"].

(** [a] is filed in [todo] and, against the data model, in [done] too. *)
Definition board_a_twice : BoardData := example_board ["a"] [] ["a"].

(** The default columns as [getInitialData] builds them. *)
Definition todo_column (ids : list string) : Column.t :=
  Column.mk "todo" "To Do" "bg-blue-100" "bg-blue-500" ids.

Definition done_column (ids : list string) : Column.t :=
  Column.mk "done" "Done" "bg-green-100" "bg-green-500" ids.

(** A string of [n] copies of ["a"]. *)
Fixpoint letters (n : nat) : string :=
  match n with
  | O => ""
  | S n' => String "a" (letters n')
  end.

(** The largest content the text area lets a user type, and one more. *)
Definition maxLength : nat := 300.
Definition oversized_content : string := letters (S maxLength).

(** The board a run leaves ([b] itself if the run raises). *)
Definition after (b : BoardData) (ops : list op) : BoardData :=
  match run b ops with
  | Ok b' => b'
  | Throw _ => b
  end.

(** Two tasks created in [todo] at one clock reading. *)
Definition first_create : op := CreateTask "todo" "x" 1000.
Definition second_create : op := CreateTask "todo" "y" 1000.
Definition same_clock_run : list op := [first_create; second_create].

(** ** Forms of the invariants used in the proofs *)

(** The three invariants, taken apart. *)
Record well_formed (b : BoardData) : Prop := WellFormed {
  wf_listed_known t k : task_in_column b t k → is_Some (tasks b !! t);
  wf_nodup k col : columns b !! k = Some col → NoDup (Column.taskIds col);
  wf_one_column t k1 k2 :
    task_in_column b t k1 → task_in_column b t k2 → k1 = k2;
  wf_known_listed t : is_Some (tasks b !! t) → ∃ k, task_in_column b t k;
  wf_order : invariant3 b
}.

(** What the proofs carry along a run: the three invariants and the two
    facts about ids. *)
Definition board_ok (b : BoardData) : Prop :=
  invariants b ∧ column_ids_ok b ∧ task_ids_ok b.

(** No stored content is blank. *)
Definition contents_nonblank (b : BoardData) : Prop :=
  map_Forall (λ _ task, trim (Task.content task) ≠ "") (tasks b).

(** ** What the component shows

    The data the JSX of [App] reads from the board, in the order it reads
    it: one entry per id of [columnOrder], with one card per id of the
    column's [taskIds].  Markup and styling are left out. *)

(** [Array.prototype.map] with a callback that may raise: elements are
    visited from the left with their index, and the first exception ends
    the traversal. *)
Fixpoint array_map {A B} (f : A → nat → result B) (idx : nat) (l : list A)
  : result (list B) :=
  match l with
  | [] => Ok []
  | a :: l' =>
      let! b := f a idx in
      let! bs := array_map f (S idx) l' in
      Ok (b :: bs)
  end.

Module Card.
(** A [Draggable]: [draggableId] (also the React key) is [task.id], [index]
    the position in the column.  The edit and delete buttons of the card
    pass [task.id] and the column's id to [openEditTaskModal] and
    [handleDeleteTask]. *)
Record t : Type := mk {
  draggableId : option string;
  index : Z;
  content : option string
}.
End Card.

Module ColumnView.
(** A column with its [Droppable]; [noTasks] is the "No tasks" line. *)
Record t : Type := mk {
  droppableId : string;
  title : string;
  color : string;
  accent : string;
  noTasks : bool;
  cards : list Card.t
}.
End ColumnView.

(** [task.id] and [task.content] of [board.tasks[taskId]]: both [undefined]
    on a member of [Object.prototype], a [TypeError] on [undefined]. *)
Definition render_card (b : BoardData) (taskId : string) (idx : nat)
  : result Card.t :=
  match read_task (tasks b) taskId with
  | OwnTask task =>
      Ok (Card.mk (Task.id task) (Z.of_nat idx) (Some (Task.content task)))
  | PrototypeMember => Ok (Card.mk None (Z.of_nat idx) None)
  | NoProperty => Throw TypeError
  end.

Definition render_column (b : BoardData) (colId : string) (_ : nat)
  : result ColumnView.t :=
  let! column := defined (columns b !! colId) in
  let! cards := array_map (render_card b) 0 (Column.taskIds column) in
  Ok (ColumnView.mk (Column.id column) (Column.title column)
        (Column.color column) (Column.accent column)
        (bool_decide (length (Column.taskIds column) = 0%nat)) cards).

(** The board part of what [App] returns. *)
Definition render (b : BoardData) : result (list ColumnView.t) :=
  array_map (render_column b) 0 (columnOrder b).

(** Every entry of [tasks] carries its key as [id]. *)
Definition tasks_filed_ok (b : BoardData) : Prop :=
  map_Forall (λ k task, Task.id task = Some k) (tasks b).

(** Only white space, or nothing at all. *)
Definition all_white_space (s : string) : bool :=
  forallb is_white_space (list_ascii_of_string s).

(** Every column of [columnOrder] is on the board, and none of them lists
    an id for which [tasks[id]] is [undefined]. *)
Definition renderable (b : BoardData) : Prop :=
  ∀ k, k ∈ columnOrder b →
    ∃ col, columns b !! k = Some col
           ∧ ∀ t, t ∈ Column.taskIds col →
                  is_Some (tasks b !! t) ∨ inherited t = true.

(** What is shown of a board that renders. *)
Definition shown (b : BoardData) : list ColumnView.t :=
  match render b with
  | Ok views => views
  | Throw _ => []
  end.

(** The part of a column no handler writes: everything but [taskIds]. *)
Definition heading (col : Column.t) : string * string * string * string :=
  (Column.id col, Column.title col, Column.color col, Column.accent col).

(** The [draggableId]s of all cards shown, column after column. *)
Definition shown_ids (views : list ColumnView.t) : list (option string) :=
  views ≫= λ cv, Card.draggableId <$> ColumnView.cards cv.

(** * Proofs *)

(** Settles a decidable statement about concrete boards by evaluating its
    decision procedure. *)
Ltac by_computation := apply (bool_decide_unpack _); vm_compute; exact I.

(** ** [splice] *)

Section Splice.
Context {A : Type}.
Implicit Types (l items : list A) (x : A).

Lemma splice_nonneg l (start deleteCount : Z) items :
  (0 ≤ start)%Z → (0 ≤ deleteCount)%Z →
  splice l start deleteCount items
  = take (Z.to_nat start) l ++ items
      ++ drop (Z.to_nat start + Z.to_nat deleteCount) l.
Proof.
  intros Hs Hd. unfold splice.
  destruct (Z.ltb_spec start 0) as [|_]; [lia|].
  destruct (decide (Z.of_nat (length l) ≤ start)%Z) as [Hge|Hlt].
  - rewrite Z.min_r by lia.
    rewrite !take_ge by lia. rewrite !drop_ge by lia. done.
  - rewrite Z.min_l by lia. f_equal. f_equal.
    destruct (decide (deleteCount ≤ Z.of_nat (length l) - start)%Z).
    + f_equal. lia.
    + rewrite !drop_ge by lia. done.
Qed.

Lemma splice_remove l (i : Z) :
  (0 ≤ i)%Z → splice l i 1 [] = remove_at (Z.to_nat i) l.
Proof.
  intros Hi. rewrite splice_nonneg by lia. unfold remove_at.
  replace (Z.to_nat i + Z.to_nat 1)%nat with (S (Z.to_nat i)) by lia. done.
Qed.

Lemma splice_insert l (i : Z) x :
  (0 ≤ i)%Z → splice l i 0 [x] = insert_at (Z.to_nat i) x l.
Proof.
  intros Hi. rewrite splice_nonneg by lia. unfold insert_at.
  replace (Z.to_nat i + Z.to_nat 0)%nat with (Z.to_nat i) by lia. done.
Qed.

(** Wherever the index points, inserting one element adds just it. *)
Lemma splice_insert_Permutation l (i : Z) x : splice l i 0 [x] ≡ₚ x :: l.
Proof.
  unfold splice.
  set (s := if (i <? 0)%Z then _ else _).
  assert (0 ≤ s ≤ Z.of_nat (length l))%Z as Hs.
  { subst s. destruct (Z.ltb_spec i 0); lia. }
  rewrite Z.max_id.
  replace (s + Z.min 0 (Z.of_nat (length l) - s))%Z with s by lia.
  cbn [app]. rewrite <- Permutation_middle. by rewrite take_drop.
Qed.

Lemma remove_at_delete (i : nat) l : remove_at i l = delete i l.
Proof. unfold remove_at. by rewrite delete_take_drop. Qed.

Lemma at_index_Some l (i : Z) x :
  at_index l i = Some x ↔ (0 ≤ i)%Z ∧ l !! Z.to_nat i = Some x.
Proof.
  unfold at_index. destruct (Z.ltb_spec i 0) as [Hneg|Hpos].
  - split; [done | intros [? _]; lia].
  - split; [intros; split; [lia | done] | by intros [_ ?]].
Qed.

Lemma remove_at_Permutation l (i : nat) x :
  l !! i = Some x → l ≡ₚ x :: remove_at i l.
Proof. rewrite remove_at_delete. apply delete_Permutation. Qed.

Lemma insert_at_Permutation l (i : nat) x : insert_at i x l ≡ₚ x :: l.
Proof.
  unfold insert_at. rewrite <- Permutation_middle. by rewrite take_drop.
Qed.

Lemma insert_at_ge l (i : nat) x :
  (length l ≤ i)%nat → insert_at i x l = l ++ [x].
Proof.
  intros Hi. unfold insert_at. by rewrite take_ge, drop_ge by lia.
Qed.

Lemma insert_at_remove_at l (i : nat) x :
  l !! i = Some x → insert_at i x (remove_at i l) = l.
Proof.
  intros Hl. unfold insert_at, remove_at.
  pose proof (lookup_lt_Some _ _ _ Hl) as Hlt.
  rewrite take_app_le by (rewrite length_take; lia).
  rewrite take_take, Nat.min_id.
  rewrite drop_app_ge by (rewrite length_take; lia).
  rewrite length_take, Nat.min_l by lia.
  rewrite Nat.sub_diag. simpl.
  rewrite <- (take_drop_middle l i x Hl) at 3. done.
Qed.

Lemma length_remove_at l (i : nat) :
  (i < length l)%nat → length (remove_at i l) = pred (length l).
Proof.
  intros Hi. unfold remove_at.
  rewrite length_app, length_take, length_drop. lia.
Qed.
End Splice.

(** ** What the four operations come to *)

Lemma createTask_eq b columnId content now :
  createTask b columnId content now
  = if String.eqb (trim content) "" then Ok b
    else create_updater (new_task_id now) content columnId b.
Proof.
  unfold createTask, handleModalSave, setBoard. simpl.
  destruct (String.eqb _ _); [done|].
  by destruct (create_updater _ _ _ _).
Qed.

Lemma editTask_eq b taskId newContent columnId now :
  editTask b taskId newContent columnId now
  = if String.eqb (trim newContent) "" then Ok b
    else if String.eqb taskId ""
         then create_updater (new_task_id now) newContent columnId b
         else edit_updater taskId newContent b.
Proof.
  unfold editTask, handleModalSave, setBoard. simpl.
  destruct (String.eqb (trim _) _); [done|].
  destruct (String.eqb taskId ""); simpl; [|done].
  by destruct (create_updater _ _ _ _).
Qed.

Lemma deleteTask_eq b taskId columnId :
  deleteTask b taskId columnId = delete_updater taskId columnId b.
Proof.
  unfold deleteTask, confirmDelete, setBoard. simpl.
  by destruct (delete_updater _ _ _).
Qed.

Lemma moveTask_eq b taskId s si d di :
  moveTask b taskId s si d di
  = if bool_decide (d = s ∧ di = si) then Ok b
    else drag_updater taskId (DraggableLocation.mk s si)
           (DraggableLocation.mk d di) b.
Proof.
  unfold moveTask, onDragEnd, setBoard. simpl.
  destruct (bool_decide _); [done|].
  by destruct (drag_updater _ _ _ _).
Qed.

(** ** Moves *)

(** A move between two positions of one column. *)
Lemma drag_updater_same_column b taskId c col (si di : Z) :
  columns b !! c = Some col → Column.id col = c →
  drag_updater taskId (DraggableLocation.mk c si) (DraggableLocation.mk c di) b
  = Ok (with_columns b
          (<[c := Column.with_taskIds col
                    (splice (splice (Column.taskIds col) si 1 []) di 0
                       [taskId])]> (columns b))).
Proof.
  intros Hc Hid. unfold drag_updater, same_column. simpl.
  rewrite Hc. rewrite bool_decide_eq_true_2 by done. simpl. by rewrite Hid.
Qed.

(** A move from one column to another. *)
Lemma drag_updater_cross_column b taskId s d cs cd (si di : Z) :
  s ≠ d →
  columns b !! s = Some cs → Column.id cs = s →
  columns b !! d = Some cd → Column.id cd = d →
  drag_updater taskId (DraggableLocation.mk s si) (DraggableLocation.mk d di) b
  = Ok (with_columns b
          (<[d := Column.with_taskIds cd
                    (splice (Column.taskIds cd) di 0 [taskId])]>
             (<[s := Column.with_taskIds cs
                       (splice (Column.taskIds cs) si 1 [])]> (columns b)))).
Proof.
  intros Hne Hs Hids Hd Hidd. unfold drag_updater, same_column. simpl.
  rewrite Hs, Hd. rewrite bool_decide_eq_false_2 by done. simpl.
  by rewrite Hids, Hidd.
Qed.

(** With both columns on the board a move never raises. *)
Lemma drag_updater_Ok b taskId src dst :
  is_Some (columns b !! DraggableLocation.droppableId src) →
  is_Some (columns b !! DraggableLocation.droppableId dst) →
  ∃ b', drag_updater taskId src dst b = Ok b'
        ∧ tasks b' = tasks b ∧ columnOrder b' = columnOrder b.
Proof.
  intros [cs Hs] [cd Hd]. unfold drag_updater, same_column.
  rewrite Hs, Hd. simpl. destruct (bool_decide _); simpl; eauto.
Qed.

Lemma same_column_move_ids (l : list string) (si di : Z) taskId :
  at_index l si = Some taskId → (0 ≤ di)%Z →
  (if bool_decide (di = si) then l
   else splice (splice l si 1 []) di 0 [taskId])
  = insert_at (Z.to_nat di) taskId (remove_at (Z.to_nat si) l).
Proof.
  intros [Hsi Hl]%at_index_Some Hdi. case_bool_decide as Heq.
  - subst di. by rewrite insert_at_remove_at.
  - by rewrite splice_remove, splice_insert.
Qed.

(** *** Same-column move (C2) *)

(** C2.  On a board whose columns are filed under their ids, a report that
    stays in column [c], whose source index addresses the moved task and
    whose destination index is a position ([0 ≤ destIndex]), succeeds; it
    leaves in [c] the sequence got by removing the id at [sourceIndex] and
    then inserting it at [destIndex] of the shortened sequence, and changes
    nothing else on the board.  The specification's example, [[a,b,c]] with
    index 1 moved to index 0 giving [[b,a,c]], is this statement at that
    column. *)
Theorem moveTask_same_column b taskId c col (sourceIndex destIndex : Z) :
  columns b !! c = Some col → Column.id col = c →
  at_index (Column.taskIds col) sourceIndex = Some taskId →
  (0 ≤ destIndex)%Z →
  ∃ b', moveTask b taskId c sourceIndex c destIndex = Ok b'
    ∧ Column.taskIds <$> columns b' !! c
      = Some (insert_at (Z.to_nat destIndex) taskId
                (remove_at (Z.to_nat sourceIndex) (Column.taskIds col)))
    ∧ (∀ k, k ≠ c → columns b' !! k = columns b !! k)
    ∧ tasks b' = tasks b ∧ columnOrder b' = columnOrder b.
Proof.
  intros Hc Hid Hsrc Hdst. rewrite moveTask_eq.
  pose proof (same_column_move_ids _ _ _ _ Hsrc Hdst) as Hids.
  destruct (decide (destIndex = sourceIndex)) as [->|Hmove].
  - rewrite bool_decide_eq_true_2 in Hids by done.
    rewrite bool_decide_eq_true_2 by done.
    exists b. rewrite Hc. simpl. by rewrite <- Hids.
  - rewrite bool_decide_eq_false_2 in Hids by done.
    rewrite bool_decide_eq_false_2 by (by intros [_ ?]).
    rewrite (drag_updater_same_column _ _ _ _ _ _ Hc Hid).
    eexists. split; [done|]. simpl. rewrite lookup_insert_eq. simpl.
    rewrite Hids. repeat split; [|done..].
    intros k Hk. by rewrite lookup_insert_ne.
Qed.

(** *** Cross-column move (C3) *)

(** C3.  On a board whose columns are filed under their ids, a report from
    column [s] to a different column [d] with positions as indices succeeds;
    the source column loses the id at [sourceIndex], the destination column
    gets the task id at [destIndex] of its own former sequence, the other
    columns, the task map and the column order stay as they were. *)
Theorem moveTask_cross_column b taskId s d cs cd (sourceIndex destIndex : Z) :
  column_ids_ok b →
  s ≠ d → columns b !! s = Some cs → columns b !! d = Some cd →
  (0 ≤ sourceIndex < Z.of_nat (length (Column.taskIds cs)))%Z →
  (0 ≤ destIndex ≤ Z.of_nat (length (Column.taskIds cd)))%Z →
  ∃ b', moveTask b taskId s sourceIndex d destIndex = Ok b'
    ∧ Column.taskIds <$> columns b' !! s
      = Some (remove_at (Z.to_nat sourceIndex) (Column.taskIds cs))
    ∧ Column.taskIds <$> columns b' !! d
      = Some (insert_at (Z.to_nat destIndex) taskId (Column.taskIds cd))
    ∧ (∀ k, k ≠ s → k ≠ d → columns b' !! k = columns b !! k)
    ∧ tasks b' = tasks b ∧ columnOrder b' = columnOrder b.
Proof.
  intros Hids Hne Hs Hd Hsi Hdi. rewrite moveTask_eq.
  rewrite bool_decide_eq_false_2 by (by intros [? _]).
  rewrite (drag_updater_cross_column _ _ _ _ _ _ _ _ Hne Hs (Hids _ _ Hs) Hd
             (Hids _ _ Hd)).
  eexists. split; [done|]. simpl.
  rewrite lookup_insert_eq, lookup_insert_ne, lookup_insert_eq by done.
  simpl. rewrite splice_remove, splice_insert by lia.
  repeat split; [|done..].
  intros k Hks Hkd. by rewrite !lookup_insert_ne.
Qed.

(** ** Creation *)

Lemma trim_nonblank_eqb s : trim s ≠ "" → String.eqb (trim s) "" = false.
Proof. intros Hs. by apply String.eqb_neq. Qed.

Lemma trim_nonblank_nonempty s : trim s ≠ "" → s ≠ "".
Proof. intros Hs ->. by apply Hs. Qed.

(** Ids made at different clock readings differ. *)
Lemma new_task_id_inj now now' :
  new_task_id now = new_task_id now' → now = now'.
Proof.
  unfold new_task_id. intros Heq. simplify_eq. by apply (inj pretty).
Qed.

Lemma new_task_id_nonempty now : new_task_id now ≠ "".
Proof. done. Qed.

Lemma createTask_Ok b columnId col content now :
  columns b !! columnId = Some col → trim content ≠ "" →
  createTask b columnId content now
  = Ok (with_tasks_columns b
          (<[new_task_id now := Task.mk (Some (new_task_id now)) content]>
             (tasks b))
          (<[columnId :=
               Column.with_taskIds col (new_task_id now :: Column.taskIds col)]>
             (columns b))).
Proof.
  intros Hc Hs. rewrite createTask_eq, (trim_nonblank_eqb _ Hs).
  unfold create_updater. by rewrite Hc.
Qed.

(** What a creation does, whether its id is new or not.  For a column on
    the board and content that is not blank, creation succeeds with the id
    ["task-" + now]: the task map gets [{id, content}] under that id and is
    otherwise unchanged, the column's sequence gets the id in front, so that
    [columns[columnId].taskIds[0]] is the id and [tasks[id].content] is the
    content given.  The id differs from every id made at another clock
    reading. *)
Theorem createTask_prepends b columnId col content now :
  columns b !! columnId = Some col → trim content ≠ "" →
  ∃ b' newId,
    createTask b columnId content now = Ok b'
    ∧ newId = new_task_id now
    ∧ (∀ now', now' ≠ now → new_task_id now' ≠ newId)
    ∧ tasks b' = <[newId := Task.mk (Some newId) content]> (tasks b)
    ∧ Column.taskIds <$> columns b' !! columnId
      = Some (newId :: Column.taskIds col)
    ∧ (columns b' !! columnId ≫= λ c, Column.taskIds c !! 0%nat) = Some newId
    ∧ Task.content <$> tasks b' !! newId = Some content
    ∧ (∀ k, k ≠ columnId → columns b' !! k = columns b !! k)
    ∧ columnOrder b' = columnOrder b.
Proof.
  intros Hc Hs. eexists _, _. split; [by apply createTask_Ok|].
  simpl. rewrite !lookup_insert_eq. simpl.
  repeat split; [|by intros; rewrite lookup_insert_ne].
  intros now' Hne Heq. by apply Hne, new_task_id_inj.
Qed.

(** ** Deletion *)

Lemma deleteTask_Ok b taskId columnId col :
  columns b !! columnId = Some col →
  deleteTask b taskId columnId
  = Ok (with_tasks_columns b (delete taskId (tasks b))
          (<[columnId :=
               Column.with_taskIds col
                 (filter (λ id, id ≠ taskId) (Column.taskIds col))]>
             (columns b))).
Proof.
  intros Hc. rewrite deleteTask_eq. unfold delete_updater. by rewrite Hc.
Qed.

(** C10.  A delete request for [(taskId, columnId)] with [columnId] on the
    board succeeds; it removes [taskId] from [tasks] whatever the columns
    hold, filters it out of [columns[columnId].taskIds] and leaves every
    other column as it was.  So a column other than [columnId] that lists
    [taskId] still lists it afterwards, while [tasks] no longer has it. *)
Theorem deleteTask_filters_given_column_only b taskId columnId col :
  columns b !! columnId = Some col →
  ∃ b',
    deleteTask b taskId columnId = Ok b'
    ∧ tasks b' = delete taskId (tasks b)
    ∧ Column.taskIds <$> columns b' !! columnId
      = Some (filter (λ id, id ≠ taskId) (Column.taskIds col))
    ∧ (∀ k, k ≠ columnId → columns b' !! k = columns b !! k)
    ∧ (∀ k other, k ≠ columnId → columns b !! k = Some other →
         taskId ∈ Column.taskIds other →
         tasks b' !! taskId = None
         ∧ ∃ other', columns b' !! k = Some other'
                     ∧ taskId ∈ Column.taskIds other').
Proof.
  intros Hc. eexists. split; [by apply deleteTask_Ok|]. simpl.
  rewrite lookup_insert_eq. simpl. repeat split.
  - intros k Hk. by rewrite lookup_insert_ne.
  - apply lookup_delete_eq.
  - exists other. by rewrite lookup_insert_ne.
Qed.

(** ** The invariants, in a form fit for induction *)

Section Occurrences.
Implicit Types (t : string) (l : list string).

Lemma occurrences_cons t x l :
  occurrences t (x :: l)
  = ((if decide (x = t) then 1 else 0) + occurrences t l)%nat.
Proof.
  unfold occurrences. rewrite filter_cons. by destruct (decide (x = t)).
Qed.

Lemma occurrences_zero t l : occurrences t l = 0%nat ↔ t ∉ l.
Proof.
  induction l as [|x l IH]; [split; [intros _; apply not_elem_of_nil|done]|].
  rewrite occurrences_cons, not_elem_of_cons.
  destruct (decide (x = t)) as [->|Hne].
  - split; [lia|by intros [? _]].
  - rewrite <- IH. split; [intros; split; [congruence|lia]|by intros [_ ?]].
Qed.

Lemma occurrences_NoDup t l : NoDup l → t ∈ l → occurrences t l = 1%nat.
Proof.
  induction 1 as [|x l Hx _ IH]; [by intros ?%elem_of_nil|].
  rewrite occurrences_cons, elem_of_cons.
  destruct (decide (x = t)) as [->|Hne].
  - intros _. apply occurrences_zero in Hx. lia.
  - intros [?|Hin]; [congruence|]. by rewrite IH.
Qed.

Lemma NoDup_occurrences l :
  (∀ t, t ∈ l → occurrences t l = 1%nat) → NoDup l.
Proof.
  induction l as [|x l IH]; [constructor|].
  intros Hone. constructor.
  - apply occurrences_zero. specialize (Hone x (list_elem_of_here _ _)).
    rewrite occurrences_cons, decide_True in Hone by done. lia.
  - apply IH. intros t Hin.
    specialize (Hone t (list_elem_of_further _ _ _ Hin)).
    rewrite occurrences_cons in Hone.
    destruct (decide (x = t)); [|done].
    apply occurrences_zero in Hin; [done|lia].
Qed.

(** What [filter] keeps and what it drops add up. *)
Lemma length_filter_occurrences t l :
  (length (filter (λ id, id ≠ t) l) + occurrences t l)%nat = length l.
Proof.
  induction l as [|x l IH]; [done|].
  rewrite occurrences_cons, filter_cons.
  destruct (decide (x = t)) as [->|Hne].
  - rewrite decide_False by naive_solver. simpl. lia.
  - rewrite decide_True by done. simpl. lia.
Qed.

Lemma filter_absent t l : t ∉ l → filter (λ id, id ≠ t) l = l.
Proof.
  induction l as [|x l IH]; [done|].
  rewrite not_elem_of_cons. intros [Hne Hnin].
  rewrite filter_cons_True by done. by rewrite IH.
Qed.
End Occurrences.


Lemma well_formed_invariants b : well_formed b ↔ invariants b.
Proof.
  split.
  - intros [H1 Hnd Hone Hex H3]. split_and!; [|  |done].
    + intros k col t Hk Ht. apply (H1 t k). by exists col.
    + intros t [k [col [Hk Ht]]]%Hex. exists k, col. split_and!; [done|..].
      * apply occurrences_NoDup; eauto.
      * intros k' col' Hk' Ht'. apply (Hone t); [by exists col'|by exists col].
  - intros (H1 & H2 & H3).
    assert (∀ t k1 k2, task_in_column b t k1 → task_in_column b t k2 → k1 = k2)
      as Hone.
    { intros t k1 k2 [c1 [Hk1 Ht1]] [c2 [Hk2 Ht2]].
      destruct (H2 t (H1 _ _ _ Hk1 Ht1)) as (k & col & _ & _ & Huniq).
      rewrite (Huniq _ _ Hk1 Ht1). by rewrite (Huniq _ _ Hk2 Ht2). }
    split; [| | done | | done].
    + intros t k [col [Hk Ht]]. eauto.
    + intros k col Hk. apply NoDup_occurrences. intros t Ht.
      destruct (H2 t (H1 _ _ _ Hk Ht)) as (k' & col' & Hk' & Hocc & Huniq).
      rewrite (Huniq _ _ Hk Ht) in Hk. by simplify_eq.
    + intros t (k & col & Hk & Hocc & _)%H2. exists k, col. split; [done|].
      destruct (decide (t ∈ Column.taskIds col)) as [|Hnin]; [done|].
      apply occurrences_zero in Hnin. lia.
Qed.

Lemma listed_insert cols c col' t k :
  listed (<[c := col']> cols) t k
  ↔ (k = c ∧ t ∈ Column.taskIds col') ∨ (k ≠ c ∧ listed cols t k).
Proof.
  unfold listed. destruct (decide (k = c)) as [->|Hne].
  - rewrite lookup_insert_eq. naive_solver.
  - rewrite lookup_insert_ne by done. naive_solver.
Qed.

Lemma invariant3_insert b newTasks c col col' :
  columns b !! c = Some col → invariant3 b →
  invariant3 (with_tasks_columns b newTasks (<[c := col']> (columns b))).
Proof.
  intros Hc [Hnd Hperm]. split; [done|]. simpl.
  by rewrite dom_insert_lookup_L.
Qed.

Lemma column_ids_ok_insert b newTasks c col ids :
  columns b !! c = Some col → column_ids_ok b →
  column_ids_ok
    (with_tasks_columns b newTasks
       (<[c := Column.with_taskIds col ids]> (columns b))).
Proof.
  intros Hc Hok k col'. simpl. rewrite lookup_insert_Some.
  intros [[<- <-]|[_ Hk]]; [by apply (Hok _ _ Hc)|by apply (Hok _ _ Hk)].
Qed.

(** ** Each operation keeps the invariants *)

Lemma create_updater_well_formed b id content columnId b' :
  well_formed b → tasks b !! id = None →
  create_updater id content columnId b = Ok b' → well_formed b'.
Proof.
  intros [H1 Hnd Hone Hex H3] Hfresh. unfold create_updater.
  destruct (columns b !! columnId) as [col|] eqn:Hc; [|done].
  simpl. intros [= <-].
  assert (∀ k, ¬ task_in_column b id k) as Hnew.
  { intros k Hin%H1. rewrite Hfresh in Hin. by destruct Hin. }
  split; unfold task_in_column; simpl.
  - intros t k [[-> Ht]|[Hk Ht]]%listed_insert; rewrite lookup_insert_is_Some.
    + simpl in Ht. apply elem_of_cons in Ht as [->|Ht]; [by left|].
      destruct (decide (id = t)); [by left|right]. split; [done|].
      apply (H1 t columnId). by exists col.
    + destruct (decide (id = t)); [by left|right]. split; [done|]. eauto.
  - intros k col' [[<- <-]|[_ Hk]]%lookup_insert_Some; [|by eauto].
    simpl. constructor; [|by eauto].
    intros Hin. apply (Hnew columnId). by exists col.
  - intros t k1 k2 [[-> Ht1]|[Hk1 Ht1]]%listed_insert
      [[-> Ht2]|[Hk2 Ht2]]%listed_insert; [done| | |by eauto].
    + simpl in Ht1. apply elem_of_cons in Ht1 as [->|Ht1].
      * by destruct (Hnew k2).
      * symmetry. apply (Hone t); [done|by exists col].
    + simpl in Ht2. apply elem_of_cons in Ht2 as [->|Ht2].
      * by destruct (Hnew k1).
      * apply (Hone t); [done|by exists col].
  - intros t [<-|Ht]%lookup_insert_is_Some'.
    + exists columnId. apply listed_insert. left. split; [done|]. simpl.
      apply list_elem_of_here.
    + destruct (Hex t Ht) as [k Hk]. exists k. apply listed_insert.
      destruct (decide (k = columnId)) as [->|]; [left|by right].
      split; [done|]. simpl. apply list_elem_of_further.
      destruct Hk as [col' [Hk Hin]]. by simplify_eq.
  - by eapply invariant3_insert.
Qed.

Lemma edit_updater_well_formed b id content b' :
  well_formed b → is_Some (tasks b !! id) →
  edit_updater id content b = Ok b' → well_formed b'.
Proof.
  intros [H1 Hnd Hone Hex H3] Hid. unfold edit_updater. intros [= <-].
  assert (∀ t, is_Some (<[id := Task.mk (tasks b !! id ≫= Task.id) content]>
                          (tasks b) !! t) ↔ is_Some (tasks b !! t)) as Hsame.
  { intros t. rewrite lookup_insert_is_Some.
    destruct (decide (id = t)) as [<-|]; naive_solver. }
  split; unfold task_in_column; simpl; try done.
  - intros t k Hin. apply Hsame. eauto.
  - intros t Ht%Hsame. eauto.
Qed.

Lemma delete_updater_well_formed b taskId columnId b' :
  well_formed b → task_in_column b taskId columnId →
  delete_updater taskId columnId b = Ok b' → well_formed b'.
Proof.
  intros [H1 Hnd Hone Hex H3] Hin. unfold delete_updater.
  destruct (columns b !! columnId) as [col|] eqn:Hc; [|done].
  simpl. intros [= <-].
  split; unfold task_in_column; simpl.
  - intros t k Hl. rewrite lookup_delete_is_Some.
    apply listed_insert in Hl as [[-> Ht]|[Hk Ht]].
    + simpl in Ht. apply list_elem_of_filter in Ht as [Hne Ht].
      split; [done|]. apply (H1 t columnId). by exists col.
    + split; [|by eauto]. intros <-. by apply Hk, (Hone taskId).
  - intros k col' [[<- <-]|[_ Hk]]%lookup_insert_Some; [|by eauto].
    simpl. apply NoDup_filter. eauto.
  - assert (∀ t k, listed
                     (<[columnId :=
                          Column.with_taskIds col
                            (filter (λ id, id ≠ taskId) (Column.taskIds col))]>
                        (columns b)) t k → task_in_column b t k) as Hsub.
    { intros t k [[-> Ht]|[Hk Ht]]%listed_insert; [|done].
      simpl in Ht. apply list_elem_of_filter in Ht as [_ Ht]. by exists col. }
    intros t k1 k2 Hk1%Hsub Hk2%Hsub. eauto.
  - intros t [Hne Ht]%lookup_delete_is_Some.
    destruct (Hex t Ht) as [k Hk]. exists k. apply listed_insert.
    destruct (decide (k = columnId)) as [->|]; [left|by right].
    split; [done|]. simpl. apply list_elem_of_filter. split; [done|].
    destruct Hk as [col' [Hk Hin']]. by simplify_eq.
  - by eapply invariant3_insert.
Qed.

Lemma well_formed_permute b c col ids :
  well_formed b → columns b !! c = Some col → ids ≡ₚ Column.taskIds col →
  well_formed
    (with_columns b (<[c := Column.with_taskIds col ids]> (columns b))).
Proof.
  intros [H1 Hnd Hone Hex H3] Hc Hperm.
  assert (∀ t k, listed (<[c := Column.with_taskIds col ids]> (columns b)) t k
                 ↔ task_in_column b t k) as Hsame.
  { intros t k. rewrite listed_insert. simpl. rewrite Hperm. split.
    - intros [[-> Ht]|[_ Ht]]; [by exists col|done].
    - intros Hin. destruct (decide (k = c)) as [->|]; [left|by right].
      split; [done|]. destruct Hin as [col' [Hk Ht]]. by simplify_eq. }
  split; unfold task_in_column; simpl.
  - intros t k Hin%Hsame. eauto.
  - intros k col' [[<- <-]|[_ Hk]]%lookup_insert_Some; [|by eauto].
    simpl. rewrite Hperm. eauto.
  - intros t k1 k2 Hk1%Hsame Hk2%Hsame. eauto.
  - intros t [k Hk]%Hex. exists k. by apply Hsame.
  - by eapply invariant3_insert.
Qed.

Lemma drag_updater_well_formed b taskId s si d di b' :
  well_formed b → column_ids_ok b →
  (∃ col, columns b !! s = Some col
          ∧ at_index (Column.taskIds col) si = Some taskId) →
  is_Some (columns b !! d) →
  drag_updater taskId (DraggableLocation.mk s si) (DraggableLocation.mk d di) b
  = Ok b' →
  well_formed b'.
Proof.
  intros Hwf Hids (cs & Hs & [Hsi Hat]%at_index_Some) [cd Hd].
  pose proof (remove_at_Permutation _ _ _ Hat) as Hsrc.
  destruct (decide (s = d)) as [<-|Hne].
  - rewrite (drag_updater_same_column _ _ _ _ _ _ Hs (Hids _ _ Hs)).
    intros [= <-]. apply well_formed_permute; [done..|].
    rewrite splice_insert_Permutation, splice_remove by done. by symmetry.
  - rewrite (drag_updater_cross_column _ _ _ _ _ _ _ _ Hne Hs (Hids _ _ Hs) Hd
               (Hids _ _ Hd)).
    intros [= <-]. rewrite splice_remove by done.
    pose proof (splice_insert_Permutation (Column.taskIds cd) di taskId)
      as Hdst.
    destruct Hwf as [H1 Hnd Hone Hex H3].
    set (ids_s := remove_at (Z.to_nat si) (Column.taskIds cs)) in *.
    set (ids_d := splice (Column.taskIds cd) di 0 [taskId]) in *.
    assert (NoDup (taskId :: ids_s)) as [Hnotin Hnds]%NoDup_cons.
    { rewrite <- Hsrc. eauto. }
    assert (task_in_column b taskId s) as Hhome.
    { exists cs. split; [done|]. rewrite Hsrc. apply list_elem_of_here. }
    assert (taskId ∉ Column.taskIds cd) as Hnotd.
    { intros Hin. apply Hne, (Hone taskId); [done|by exists cd]. }
    assert (∀ t k,
              listed (<[d := Column.with_taskIds cd ids_d]>
                        (<[s := Column.with_taskIds cs ids_s]> (columns b)))
                t k
              ↔ (t = taskId ∧ k = d) ∨ (t ≠ taskId ∧ task_in_column b t k))
      as Hlisted.
    { intros t k. rewrite !listed_insert. simpl. rewrite Hdst, elem_of_cons.
      split.
      - intros [[-> [->|Ht]]|[Hkd [[-> Ht]|[Hks Ht]]]].
        + by left.
        + right. split; [by intros ->|by exists cd].
        + right. split; [by intros ->|]. exists cs. split; [done|].
          rewrite Hsrc. by apply list_elem_of_further.
        + right. split; [|done]. intros ->. by apply Hks, (Hone taskId).
      - intros [[-> ->]|[Hnt Hin]]; [left; by auto|].
        destruct (decide (k = d)) as [->|Hkd].
        { left. split; [done|right]. destruct Hin as [col [Hk Ht]].
          by simplify_eq. }
        right. split; [done|].
        destruct (decide (k = s)) as [->|Hks]; [left|by right].
        split; [done|]. destruct Hin as [col [Hk Ht]]. simplify_eq.
        rewrite Hsrc in Ht. by apply elem_of_cons in Ht as [?|?]. }
    split; unfold task_in_column; simpl.
    + intros t k [[-> ->]|[_ Hin]]%Hlisted; eauto.
    + intros k col [[<- <-]|[_ [[<- <-]|[_ Hk]]%lookup_insert_Some]]
        %lookup_insert_Some; simpl; [|done|by eauto].
      subst ids_d. rewrite Hdst. constructor; [done|by eauto].
    + intros t k1 k2 [[-> ->]|[Hnt1 Hin1]]%Hlisted
        [[? ->]|[Hnt2 Hin2]]%Hlisted; try done. eauto.
    + intros t Ht. destruct (decide (t = taskId)) as [->|Hnt].
      * exists d. apply Hlisted. by left.
      * destruct (Hex t Ht) as [k Hk]. exists k. apply Hlisted. by right.
    + destruct H3 as [Hnd3 Hperm3]. split; [done|]. simpl.
      rewrite dom_insert_lookup_L by (by rewrite lookup_insert_ne).
      by rewrite dom_insert_lookup_L.
Qed.

(** ** Runs from the initial board *)

Lemma initial_board_columns_empty :
  map_Forall (λ _ col, Column.taskIds col = []) (columns initial_board).
Proof. by_computation. Qed.

Lemma initial_board_invariants : invariants initial_board.
Proof.
  split_and!.
  - intros k col t Hk Ht. rewrite (initial_board_columns_empty _ _ Hk) in Ht.
    by apply elem_of_nil in Ht.
  - intros t [task Ht].
    change (tasks initial_board) with (∅ : gmap string Task.t) in Ht.
    by rewrite lookup_empty in Ht.
  - split; by_computation.
Qed.

Lemma initial_board_column_ids_ok : column_ids_ok initial_board.
Proof. by_computation. Qed.


Lemma initial_board_ok : board_ok initial_board.
Proof.
  split_and!;
    [apply initial_board_invariants|apply initial_board_column_ids_ok|done].
Qed.

Lemma create_updater_Some b id content columnId b' :
  create_updater id content columnId b = Ok b' →
  ∃ col, columns b !! columnId = Some col
    ∧ b' = with_tasks_columns b (<[id := Task.mk (Some id) content]> (tasks b))
             (<[columnId := Column.with_taskIds col (id :: Column.taskIds col)]>
                (columns b)).
Proof.
  unfold create_updater. destruct (columns b !! columnId) as [col|]; [|done].
  simpl. intros [= <-]. eauto.
Qed.

Lemma delete_updater_Some b taskId columnId b' :
  delete_updater taskId columnId b = Ok b' →
  ∃ col, columns b !! columnId = Some col
    ∧ b' = with_tasks_columns b (delete taskId (tasks b))
             (<[columnId :=
                  Column.with_taskIds col
                    (filter (λ id, id ≠ taskId) (Column.taskIds col))]>
                (columns b)).
Proof.
  unfold delete_updater. destruct (columns b !! columnId) as [col|]; [|done].
  simpl. intros [= <-]. eauto.
Qed.

Lemma drag_updater_column_ids_ok b taskId src dst b' :
  column_ids_ok b → drag_updater taskId src dst b = Ok b' → column_ids_ok b'.
Proof.
  intros Hok. unfold drag_updater.
  destruct (same_column _ _ _).
  - destruct (columns b !! DraggableLocation.droppableId src) as [cs|] eqn:Hs;
      [|done].
    simpl. intros [= <-]. rewrite (Hok _ _ Hs).
    by apply (column_ids_ok_insert b (tasks b) _ cs).
  - destruct (columns b !! DraggableLocation.droppableId src) as [cs|] eqn:Hs;
      [|done].
    destruct (columns b !! DraggableLocation.droppableId dst) as [cd|] eqn:Hd;
      [|done].
    simpl. intros [= <-]. rewrite (Hok _ _ Hs), (Hok _ _ Hd).
    intros k col. simpl. rewrite !lookup_insert_Some.
    intros [[<- <-]|[_ [[<- <-]|[_ Hk]]]];
      [by apply (Hok _ _ Hd)|by apply (Hok _ _ Hs)|by apply (Hok _ _ Hk)].
Qed.

Lemma drag_updater_tasks b taskId src dst b' :
  drag_updater taskId src dst b = Ok b' → tasks b' = tasks b.
Proof.
  unfold drag_updater.
  destruct (same_column _ _ _),
    (columns b !! DraggableLocation.droppableId src),
    (columns b !! DraggableLocation.droppableId dst);
    simpl; intros Heq; by inversion Heq.
Qed.

(** An operation that meets its preconditions does not raise. *)
Lemma valid_op_Ok b o :
  task_ids_ok b → valid_op b o → ∃ b', apply_op b o = Ok b'.
Proof.
  intros Hempty. destruct o as [c content now|t content c now|t c|t s si d di];
    simpl.
  - intros [[col Hc] Hs]. rewrite (createTask_Ok _ _ _ _ _ Hc Hs). eauto.
  - intros [Ht Hs]. rewrite editTask_eq, (trim_nonblank_eqb _ Hs).
    destruct (String.eqb_spec t "") as [->|_]; [|by eauto].
    rewrite Hempty in Ht. by destruct Ht.
  - intros [_ [col [Hc _]]]. rewrite (deleteTask_Ok _ _ _ _ Hc). eauto.
  - intros [(cs & Hs & _) (cd & Hd & _)]. rewrite moveTask_eq.
    destruct (bool_decide _); [by eauto|].
    destruct (drag_updater_Ok b t (DraggableLocation.mk s si)
                (DraggableLocation.mk d di)) as (b' & Hb' & _); by eauto.
Qed.

Lemma apply_op_board_ok b o b' :
  board_ok b → valid_op b o → fresh_op b o → apply_op b o = Ok b' →
  board_ok b'.
Proof.
  intros (Hinv%well_formed_invariants & Hids & Hempty).
  unfold board_ok. rewrite <- well_formed_invariants.
  destruct o as [c content now|t content c now|t c|t s si d di]; simpl.
  - intros [_ Hs] Hfresh. rewrite createTask_eq, (trim_nonblank_eqb _ Hs).
    intros Hb'. split; [by eapply create_updater_well_formed|].
    apply create_updater_Some in Hb' as (col & Hc & ->).
    split; [by apply column_ids_ok_insert|].
    unfold task_ids_ok. simpl. by rewrite lookup_insert_ne.
  - intros [Ht Hs] _. rewrite editTask_eq, (trim_nonblank_eqb _ Hs).
    destruct (String.eqb_spec t "") as [->|Hne].
    { rewrite Hempty in Ht. by destruct Ht. }
    intros Hb'. split; [by eapply edit_updater_well_formed|].
    injection Hb' as <-. split; [done|].
    unfold task_ids_ok. simpl. by rewrite lookup_insert_ne.
  - intros [_ Hin] _. rewrite deleteTask_eq. intros Hb'.
    split; [by eapply delete_updater_well_formed|].
    apply delete_updater_Some in Hb' as (col & Hc & ->).
    split; [by apply column_ids_ok_insert|].
    unfold task_ids_ok. simpl. by apply lookup_delete_None; right.
  - intros [Hsrc (cd & Hd & _)] _. rewrite moveTask_eq.
    destruct (bool_decide _); [by intros [= <-]|].
    intros Hb'. split; [by eapply drag_updater_well_formed|].
    split; [by eapply drag_updater_column_ids_ok|].
    destruct (drag_updater_Ok b t (DraggableLocation.mk s si)
                (DraggableLocation.mk d di)) as (b'' & Hb'' & Ht & _).
    { destruct Hsrc as (cs & Hs & _). by exists cs. }
    { by exists cd. }
    rewrite Hb' in Hb''. injection Hb'' as <-.
    unfold task_ids_ok. by rewrite Ht.
Qed.

Lemma steps_run P b ops b' : steps P b ops b' → run b ops = Ok b'.
Proof.
  assert (∀ ops1 ops2 b1 b2,
            run b1 ops1 = Ok b2 → run b1 (ops1 ++ ops2) = run b2 ops2) as Happ.
  { induction ops1 as [|o ops1 IH]; simpl; intros ops2 b1 b2.
    - by intros [= ->].
    - destruct (apply_op b1 o); simpl; [by apply IH|done]. }
  induction 1 as [|b ops b' o b'' _ IH _ Hstep]; [done|].
  rewrite (Happ _ _ _ _ IH). simpl. by rewrite Hstep.
Qed.

Lemma steps_board_ok b0 ops b :
  board_ok b0 → steps (λ b o, valid_op b o ∧ fresh_op b o) b0 ops b →
  board_ok b.
Proof.
  intros Hok Hsteps.
  induction Hsteps as [b0|b0 ops b' o b'' _ IH [Hvalid Hfresh] Hstep];
    [done|].
  exact (apply_op_board_ok _ _ _ (IH Hok) Hvalid Hfresh Hstep).
Qed.

(** On a run from the initial board in which every operation meets its
    preconditions and every creation happens at a clock reading whose id is
    not taken, the three invariants hold after each operation. *)
Theorem invariants_kept_while_ids_fresh ops b :
  steps (λ b o, valid_op b o ∧ fresh_op b o) initial_board ops b →
  invariants b.
Proof.
  intros Hsteps. by destruct (steps_board_ok _ _ _ initial_board_ok Hsteps).
Qed.

(** ** Stored content *)


Lemma apply_op_contents_nonblank b o b' :
  contents_nonblank b → apply_op b o = Ok b' → contents_nonblank b'.
Proof.
  intros Hb.
  assert (∀ id content columnId,
            trim content ≠ "" →
            create_updater id content columnId b = Ok b' →
            contents_nonblank b') as Hcreate.
  { intros id content columnId Hs (col & _ & ->)%create_updater_Some.
    unfold contents_nonblank. simpl. by apply map_Forall_insert_2. }
  destruct o as [c content now|t content c now|t c|t s si d di]; simpl.
  - rewrite createTask_eq. destruct (String.eqb_spec (trim content) "");
      [by intros [= <-]|by eauto].
  - rewrite editTask_eq. destruct (String.eqb_spec (trim content) "");
      [by intros [= <-]|].
    destruct (String.eqb t ""); [by eauto|]. intros [= <-].
    unfold contents_nonblank. simpl. by apply map_Forall_insert_2.
  - rewrite deleteTask_eq. intros (col & _ & ->)%delete_updater_Some.
    unfold contents_nonblank. simpl. by apply map_Forall_delete.
  - rewrite moveTask_eq. destruct (bool_decide _); [by intros [= <-]|].
    intros Htasks%drag_updater_tasks. unfold contents_nonblank.
    by rewrite Htasks.
Qed.

Lemma run_contents_nonblank ops b b' :
  contents_nonblank b → run b ops = Ok b' → contents_nonblank b'.
Proof.
  revert b. induction ops as [|o ops IH]; simpl; intros b Hb.
  - by intros [= <-].
  - destruct (apply_op b o) as [b1|] eqn:Hstep; simpl; [|done].
    apply IH. by eapply apply_op_contents_nonblank.
Qed.

Lemma length_letters n : String.length (letters n) = n.
Proof. induction n as [|n IH]; simpl; by rewrite ?IH. Qed.

Lemma trim_letters n : trim (letters (S n)) ≠ "".
Proof.
  unfold trim. simpl. change (is_white_space "a") with false. simpl. done.
Qed.

(** ** Two creations at one clock reading (C1, C8) *)

Lemma same_clock_run_steps :
  steps valid_op initial_board same_clock_run
    (after initial_board same_clock_run).
Proof.
  apply (steps_snoc valid_op initial_board [first_create]
           (after initial_board [first_create]) second_create).
  - apply (steps_snoc valid_op initial_board [] initial_board first_create).
    + constructor.
    + split; [by eexists|done].
    + reflexivity.
  - split; [by eexists|done].
  - reflexivity.
Qed.

(** C1.  The run [same_clock_run] starts from the initial board and each of
    its two creations meets the preconditions of [createTask]; both get the
    id [task-1000].  The board it leaves lists that id twice in [todo], so
    the second invariant is lost: the task is not listed exactly once. *)
Theorem invariants_lost_at_same_clock_reading :
  steps valid_op initial_board same_clock_run
    (after initial_board same_clock_run)
  ∧ run initial_board same_clock_run = Ok (after initial_board same_clock_run)
  ∧ invariants (after initial_board [first_create])
  ∧ Column.taskIds <$> columns (after initial_board same_clock_run) !! "todo"
    = Some ["task-1000"; "task-1000"]
  ∧ ¬ invariant2 (after initial_board same_clock_run)
  ∧ ¬ invariants (after initial_board same_clock_run).
Proof.
  assert (¬ invariant2 (after initial_board same_clock_run)) as Hbroken.
  { intros H2.
    destruct (H2 "task-1000") as (k & col & Hk & Hocc & Huniq); [by eexists|].
    assert (columns (after initial_board same_clock_run) !! "todo"
            = Some (todo_column ["task-1000"; "task-1000"])) as Htodo
      by reflexivity.
    rewrite <- (Huniq _ _ Htodo (list_elem_of_here _ _)) in Hk.
    rewrite Htodo in Hk. injection Hk as <-. discriminate Hocc. }
  split_and!; [apply same_clock_run_steps|reflexivity| |reflexivity|done|].
  - apply (invariants_kept_while_ids_fresh [first_create]).
    apply (steps_snoc _ initial_board [] initial_board first_create).
    + constructor.
    + split; [split; [by eexists|done]|reflexivity].
    + reflexivity.
  - by intros (_ & H2 & _).
Qed.

(** C8.  A second creation at the clock reading of the first is given the id
    of the first: the id it generates is already a key of [tasks].  The
    second task takes the entry of the first (whose content is lost) and the
    column lists the id twice. *)
Theorem createTask_reuses_id_at_same_clock_reading :
  ∃ b1 b2,
    createTask initial_board "todo" "x" 1000 = Ok b1
    ∧ tasks b1 !! new_task_id 1000 = Some (Task.mk (Some "task-1000") "x")
    ∧ createTask b1 "todo" "y" 1000 = Ok b2
    ∧ tasks b2 !! new_task_id 1000 = Some (Task.mk (Some "task-1000") "y")
    ∧ size (tasks b2) = 1%nat
    ∧ Column.taskIds <$> columns b2 !! "todo"
      = Some [new_task_id 1000; new_task_id 1000].
Proof.
  exists (after initial_board [first_create]),
    (after initial_board same_clock_run).
  split_and!; reflexivity.
Qed.

(** C5.  The id [createTask] generates is ["task-" + now] whatever the board
    holds, so it is not fresh when [tasks] has that key already.  Then, for
    a column on the board and content that is not blank, the creation still
    succeeds, prepends the id to the column and stores the content under it
    ([taskIds[0]] is the id, [tasks[id].content] the content given), but
    [tasks] gets no new key: the entry that was there is replaced. *)
Theorem createTask_id_not_fresh b columnId col content now task :
  columns b !! columnId = Some col → trim content ≠ "" →
  tasks b !! new_task_id now = Some task →
  ∃ b',
    createTask b columnId content now = Ok b'
    ∧ dom (tasks b') = dom (tasks b)
    ∧ tasks b' = <[new_task_id now :=
                     Task.mk (Some (new_task_id now)) content]> (tasks b)
    ∧ (columns b' !! columnId ≫= λ c, Column.taskIds c !! 0%nat)
      = Some (new_task_id now)
    ∧ Column.taskIds <$> columns b' !! columnId
      = Some (new_task_id now :: Column.taskIds col)
    ∧ Task.content <$> tasks b' !! new_task_id now = Some content.
Proof.
  intros Hc Hs Htaken. rewrite (createTask_Ok _ _ _ _ _ Hc Hs).
  eexists. split; [done|]. simpl. rewrite !lookup_insert_eq. simpl.
  split_and!; try done. by apply dom_insert_lookup_L.
Qed.

Lemma createTask_id_not_fresh_witness :
  ∃ b',
    createTask (after initial_board [first_create]) "todo" "y" 1000 = Ok b'
    ∧ dom (tasks b') = dom (tasks (after initial_board [first_create]))
    ∧ Column.taskIds <$> columns b' !! "todo"
      = Some ["task-1000"; "task-1000"].
Proof.
  destruct (createTask_id_not_fresh (after initial_board [first_create])
              "todo" (todo_column ["task-1000"]) "y" 1000
              (Task.mk (Some "task-1000") "x"))
    as (b' & Hb' & Hdom & _ & _ & Hids & _);
    [reflexivity|done|reflexivity|].
  exists b'. split_and!; [exact Hb'|exact Hdom|exact Hids].
Defined.

(** ** Reports that do not fit the board (C4) *)

(** C4, as stated, fails.  On [board_abc] index 0 of [todo] holds [a]; a
    report that claims to move [c] from there to [done] is applied: [a]
    leaves [todo] and [c] is added to [done].  A report with destination
    index 5 for the empty column [done] is applied too: the task is
    appended.  Neither raises. *)
Lemma moveTask_applies_misfit_reports :
  Column.taskIds <$> columns board_abc !! "todo" = Some ["a"; "b"; "c"]
  ∧ at_index ["a"; "b"; "c"] 0 = Some "a"
  ∧ (∃ b', moveTask board_abc "c" "todo" 0 "done" 0 = Ok b'
           ∧ b' ≠ board_abc
           ∧ Column.taskIds <$> columns b' !! "todo" = Some ["b"; "c"]
           ∧ Column.taskIds <$> columns b' !! "done" = Some ["c"])
  ∧ Column.taskIds <$> columns board_abc !! "done" = Some []
  ∧ (∃ b', moveTask board_abc "a" "todo" 0 "done" 5 = Ok b'
           ∧ b' ≠ board_abc
           ∧ Column.taskIds <$> columns b' !! "done" = Some ["a"]).
Proof.
  split_and!; try reflexivity.
  - eexists. split_and!; try reflexivity.
    intros Heq. by apply (f_equal (λ b, columns b !! "done")) in Heq.
  - eexists. split_and!; try reflexivity.
    intros Heq. by apply (f_equal (λ b, columns b !! "done")) in Heq.
Qed.

(** C4, amended.  [moveTask] has no error result and does not compare the
    report with the board.  With both columns on the board (filed under
    their ids) and positions as indices it succeeds, leaves [tasks] and
    [columnOrder] alone, removes whatever id sits at [sourceIndex] of the
    source sequence and inserts the reported id at [destIndex]; a
    [destIndex] past the end appends.  (A report naming one column and one
    index twice changes nothing.) *)
Theorem moveTask_applies_report_as_given b taskId s d cs cd
    (sourceIndex destIndex : Z) :
  column_ids_ok b →
  columns b !! s = Some cs → columns b !! d = Some cd →
  (0 ≤ sourceIndex)%Z → (0 ≤ destIndex)%Z →
  ∃ b', moveTask b taskId s sourceIndex d destIndex = Ok b'
    ∧ tasks b' = tasks b ∧ columnOrder b' = columnOrder b
    ∧ (s = d → destIndex = sourceIndex → b' = b)
    ∧ (s = d → destIndex ≠ sourceIndex →
         Column.taskIds <$> columns b' !! s
         = Some (insert_at (Z.to_nat destIndex) taskId
                   (remove_at (Z.to_nat sourceIndex) (Column.taskIds cs))))
    ∧ (s ≠ d →
         Column.taskIds <$> columns b' !! s
         = Some (remove_at (Z.to_nat sourceIndex) (Column.taskIds cs))
         ∧ Column.taskIds <$> columns b' !! d
           = Some (insert_at (Z.to_nat destIndex) taskId (Column.taskIds cd))
         ∧ ((length (Column.taskIds cd) ≤ Z.to_nat destIndex)%nat →
              Column.taskIds <$> columns b' !! d
              = Some (Column.taskIds cd ++ [taskId]))).
Proof.
  intros Hids Hs Hd Hsi Hdi. rewrite moveTask_eq.
  destruct (decide (s = d)) as [<-|Hne].
  - destruct (decide (destIndex = sourceIndex)) as [->|Hmove].
    + rewrite bool_decide_eq_true_2 by done. exists b. by split_and!.
    + rewrite bool_decide_eq_false_2 by (by intros [_ ?]).
      rewrite (drag_updater_same_column _ _ _ _ _ _ Hs (Hids _ _ Hs)).
      eexists. split_and!; try done. intros _ _. simpl.
      rewrite lookup_insert_eq. simpl.
      by rewrite splice_remove, splice_insert.
  - rewrite bool_decide_eq_false_2 by (by intros [? _]).
    rewrite (drag_updater_cross_column _ _ _ _ _ _ _ _ Hne Hs (Hids _ _ Hs) Hd
               (Hids _ _ Hd)).
    eexists. split_and!; try done. intros _. simpl.
    rewrite lookup_insert_eq, lookup_insert_ne, lookup_insert_eq by done.
    simpl. rewrite splice_remove, splice_insert by done.
    split_and!; try done. intros Hlen. by rewrite insert_at_ge.
Qed.

Lemma moveTask_applies_report_as_given_witness :
  ∃ b', moveTask board_abc "c" "todo" 0 "done" 5 = Ok b'
    ∧ Column.taskIds <$> columns b' !! "todo" = Some ["b"; "c"]
    ∧ Column.taskIds <$> columns b' !! "done" = Some ["c"].
Proof.
  destruct (moveTask_applies_report_as_given board_abc "c" "todo" "done"
              (todo_column ["a"; "b"; "c"]) (done_column []) 0 5)
    as (b' & Hb' & _ & _ & _ & _ & Hcross);
    [by_computation|reflexivity|reflexivity|lia|lia|].
  destruct Hcross as (Htodo & _ & Hdone); [done|].
  exists b'. split_and!; [done|exact Htodo|apply Hdone; simpl; lia].
Defined.

(** ** Witnesses for the moves, creation and deletion *)

Lemma moveTask_same_column_witness :
  ∃ b', moveTask board_abc "b" "todo" 1 "todo" 0 = Ok b'
    ∧ Column.taskIds <$> columns b' !! "todo" = Some ["b"; "a"; "c"].
Proof.
  destruct (moveTask_same_column board_abc "b" "todo"
              (todo_column ["a"; "b"; "c"]) 1 0)
    as (b' & Hb' & Htodo & _); [reflexivity|reflexivity|reflexivity|lia|].
  exists b'. split; [exact Hb'|exact Htodo].
Defined.

Lemma moveTask_cross_column_witness :
  ∃ b', moveTask board_ab_c "a" "todo" 0 "done" 1 = Ok b'
    ∧ Column.taskIds <$> columns b' !! "todo" = Some ["b"]
    ∧ Column.taskIds <$> columns b' !! "done" = Some ["c"; "a"]
    ∧ tasks b' = tasks board_ab_c.
Proof.
  destruct (moveTask_cross_column board_ab_c "a" "todo" "done"
              (todo_column ["a"; "b"]) (done_column ["c"]) 0 1)
    as (b' & Hb' & Htodo & Hdone & _ & Htasks & _);
    [by_computation|done|reflexivity|reflexivity
    |simpl; lia|simpl; lia|].
  exists b'. split_and!; [exact Hb'|exact Htodo|exact Hdone|exact Htasks].
Defined.

Lemma createTask_prepends_witness :
  ∃ b' newId,
    createTask initial_board "todo" "x" 1000 = Ok b'
    ∧ (columns b' !! "todo" ≫= λ c, Column.taskIds c !! 0%nat) = Some newId
    ∧ Task.content <$> tasks b' !! newId = Some "x".
Proof.
  destruct (createTask_prepends initial_board "todo" (todo_column []) "x" 1000)
    as (b' & newId & Hb' & _ & _ & _ & _ & Hhead & Hcontent & _);
    [reflexivity|done|].
  exists b', newId. split_and!; [exact Hb'|exact Hhead|exact Hcontent].
Defined.

Lemma deleteTask_filters_given_column_only_witness :
  ∃ b', deleteTask board_a_twice "a" "todo" = Ok b'
    ∧ tasks b' !! "a" = None
    ∧ ∃ other', columns b' !! "done" = Some other'
                ∧ "a" ∈ Column.taskIds other'.
Proof.
  destruct (deleteTask_filters_given_column_only board_a_twice "a" "todo"
              (todo_column ["a"]))
    as (b' & Hb' & _ & _ & _ & Hother); [reflexivity|].
  destruct (Hother "done" (done_column ["a"])) as [Hgone Hstill];
    [done|reflexivity|apply list_elem_of_here|].
  exists b'. split_and!; [exact Hb'|exact Hgone|exact Hstill].
Defined.

(** ** Blank content and unknown ids in the modal (C6) *)

(** C6, as stated, fails.  The initial board has no task [missing-id];
    saving an edit for that id succeeds and puts an entry under it, so the
    board is not the one before.  Saving blank content for a new task
    returns the board with no error value. *)
Lemma editTask_unknown_id_is_stored :
  tasks initial_board !! "missing-id" = None
  ∧ (∃ b', editTask initial_board "missing-id" "x" "todo" 0 = Ok b'
           ∧ tasks b' !! "missing-id" = Some (Task.mk None "x")
           ∧ b' ≠ initial_board)
  ∧ createTask initial_board "todo" "   " 0 = Ok initial_board.
Proof.
  split_and!; try reflexivity.
  eexists. split_and!; try reflexivity.
  intros Heq. by apply (f_equal (λ b, tasks b !! "missing-id")) in Heq.
Qed.

(** C6, amended.  Saving content that trims to the empty string raises no
    error and is ignored: [handleModalSave] returns with the whole state as
    it was, board and open modal included, whether the modal is for a new
    task or for an edit.  Saving an edit for a task that is in [tasks]
    (non-empty id, content that is not blank) succeeds and replaces the
    content of that entry only: its [id] property, every other task, the
    columns and the column order stay as they were. *)
Theorem blank_save_ignored_edit_replaces_content st mt content b taskId task
    newContent columnId now :
  modalTask st = Some mt → ModalTask.content mt = Some content →
  trim content = "" →
  tasks b !! taskId = Some task → taskId ≠ "" → trim newContent ≠ "" →
  handleModalSave now st = Ok st
  ∧ createTask b columnId content now = Ok b
  ∧ editTask b taskId content columnId now = Ok b
  ∧ editTask b taskId newContent columnId now
    = Ok (with_tasks b
            (<[taskId := Task.mk (Task.id task) newContent]> (tasks b))).
Proof.
  intros Hmt Hcontent Hblank Ht Hid Hs. split_and!.
  - unfold handleModalSave. rewrite Hmt, Hcontent. simpl. by rewrite Hblank.
  - rewrite createTask_eq. by rewrite Hblank.
  - rewrite editTask_eq. by rewrite Hblank.
  - rewrite editTask_eq, (trim_nonblank_eqb _ Hs).
    destruct (String.eqb_spec taskId "") as [|_]; [done|].
    unfold edit_updater. by rewrite Ht.
Qed.

Lemma blank_save_ignored_edit_replaces_content_witness :
  handleModalSave 0
    (editing board_abc (ModalTask.mk (Some "b") (Some "   ") "todo"))
  = Ok (editing board_abc (ModalTask.mk (Some "b") (Some "   ") "todo"))
  ∧ createTask board_abc "todo" "   " 0 = Ok board_abc
  ∧ editTask board_abc "b" "x" "todo" 0
    = Ok (with_tasks board_abc
            (<["b" := Task.mk (Some "b") "x"]> (tasks board_abc))).
Proof.
  destruct (blank_save_ignored_edit_replaces_content
              (editing board_abc (ModalTask.mk (Some "b") (Some "   ") "todo"))
              (ModalTask.mk (Some "b") (Some "   ") "todo") "   "
              board_abc "b" (Task.mk (Some "b") "b") "x" "todo" 0)
    as (Hstate & Hcreate & _ & Hedit);
    [reflexivity|reflexivity|reflexivity|reflexivity|done|done|].
  split_and!; [exact Hstate|exact Hcreate|exact Hedit].
Defined.

(** ** Deleting a task that is there, or is not (C7) *)

(** C7, as stated, fails.  The initial board has no task [ghost]; deleting
    it is not an error: the call succeeds and returns the board. *)
Lemma deleteTask_absent_id_succeeds :
  tasks initial_board !! "ghost" = None
  ∧ deleteTask initial_board "ghost" "todo" = Ok initial_board
  ∧ ∀ e, deleteTask initial_board "ghost" "todo" ≠ Throw e.
Proof. split_and!; [reflexivity|reflexivity|done]. Qed.

Lemma with_taskIds_same col :
  Column.with_taskIds col (Column.taskIds col) = col.
Proof. by destruct col. Qed.

(** C7, amended.  On a board that satisfies the invariants, deleting through
    a column [C] on the board always succeeds.  If the task is in [tasks]
    and listed by [C], it is gone from [tasks] afterwards and [C] lists one
    id less.  If the id is not in [tasks], there is no error: the call is a
    silent no-op that returns a board equal to the one given. *)
Theorem deleteTask_removes_one_or_nothing b taskId columnId col :
  invariants b → columns b !! columnId = Some col →
  ∃ b', deleteTask b taskId columnId = Ok b'
    ∧ (is_Some (tasks b !! taskId) → taskId ∈ Column.taskIds col →
         tasks b' !! taskId = None
         ∧ ∃ col', columns b' !! columnId = Some col'
                   ∧ S (length (Column.taskIds col'))
                     = length (Column.taskIds col))
    ∧ (tasks b !! taskId = None → b' = b).
Proof.
  intros Hinv%well_formed_invariants Hc. destruct Hinv as [H1 Hnd _ _ _].
  rewrite (deleteTask_Ok _ _ _ _ Hc). eexists. split; [done|]. split.
  - intros _ Hin. simpl. split; [apply lookup_delete_eq|].
    eexists. split; [apply lookup_insert_eq|]. simpl.
    pose proof (length_filter_occurrences taskId (Column.taskIds col)) as Hlen.
    rewrite (occurrences_NoDup _ _ (Hnd _ _ Hc) Hin) in Hlen. lia.
  - intros Hnone.
    assert (taskId ∉ Column.taskIds col) as Hnin.
    { intros Hin. destruct (H1 taskId columnId) as [task Htask];
        [by exists col|congruence]. }
    rewrite (filter_absent _ _ Hnin), with_taskIds_same.
    rewrite (insert_id _ _ _ Hc), (delete_id _ _ Hnone). by destruct b.
Qed.

Lemma deleteTask_removes_one_or_nothing_witness :
  ∃ b', deleteTask (after initial_board [first_create]) "task-1000" "todo"
        = Ok b'
    ∧ tasks b' !! "task-1000" = None
    ∧ ∃ col', columns b' !! "todo" = Some col'
              ∧ S (length (Column.taskIds col')) = 1%nat.
Proof.
  destruct (deleteTask_removes_one_or_nothing
              (after initial_board [first_create]) "task-1000" "todo"
              (todo_column ["task-1000"]))
    as (b' & Hb' & Hpresent & _).
  - apply (invariants_kept_while_ids_fresh [first_create]).
    apply (steps_snoc _ initial_board [] initial_board first_create).
    + constructor.
    + split; [split; [by eexists|done]|reflexivity].
    + reflexivity.
  - reflexivity.
  - destruct Hpresent as [Hgone Hshrunk];
      [by eexists|apply list_elem_of_here|].
    exists b'. split_and!; [exact Hb'|exact Hgone|exact Hshrunk].
Defined.

(** ** Length of the content (C9) *)

(** C9, as stated, fails.  Content of 301 characters, one more than the
    text area's [maxLength], handed to the state logic is stored as it is;
    nothing rejects it. *)
Lemma oversized_content_is_stored :
  String.length oversized_content = 301%nat
  ∧ (maxLength < String.length oversized_content)%nat
  ∧ ∃ b', createTask initial_board "todo" oversized_content 0 = Ok b'
          ∧ Task.content <$> tasks b' !! new_task_id 0
            = Some oversized_content.
Proof.
  split_and!; [reflexivity|by_computation|].
  eexists. split; reflexivity.
Qed.

Lemma initial_board_contents_nonblank : contents_nonblank initial_board.
Proof. apply map_Forall_empty. Qed.

(** C9, amended.  After any run of operations from the initial board every
    task's content is non-empty, and indeed not blank.  The state logic puts
    no bound on its length: on any board so reached, content that is not
    blank is stored whatever its length (the 300 of the specification is the
    [maxLength] of the modal's text area, which the handlers do not
    consult). *)
Theorem stored_content_nonblank_any_length ops b :
  run initial_board ops = Ok b →
  (∀ t task, tasks b !! t = Some task →
     Task.content task ≠ "" ∧ trim (Task.content task) ≠ "")
  ∧ (∀ columnId col content now,
       columns b !! columnId = Some col → trim content ≠ "" →
       ∃ b', createTask b columnId content now = Ok b'
             ∧ Task.content <$> tasks b' !! new_task_id now = Some content).
Proof.
  intros Hrun. split.
  - intros t task Ht.
    pose proof (run_contents_nonblank _ _ _ initial_board_contents_nonblank
                  Hrun _ _ Ht) as Hs.
    split; [by apply trim_nonblank_nonempty|done].
  - intros columnId col content now Hc Hs.
    rewrite (createTask_Ok _ _ _ _ _ Hc Hs). eexists. split; [done|].
    simpl. by rewrite lookup_insert_eq.
Qed.

Lemma stored_content_nonblank_any_length_witness :
  (∀ t task,
     tasks (after initial_board [first_create]) !! t = Some task →
     Task.content task ≠ "")
  ∧ ∃ b', createTask (after initial_board [first_create]) "done"
            oversized_content 0 = Ok b'
          ∧ Task.content <$> tasks b' !! new_task_id 0
            = Some oversized_content.
Proof.
  destruct (stored_content_nonblank_any_length [first_create]
              (after initial_board [first_create]))
    as [Hnonblank Hany]; [reflexivity|].
  split.
  - intros t task Ht. by destruct (Hnonblank t task Ht).
  - apply (Hany "done" (done_column [])); [reflexivity|].
    apply trim_letters.
Defined.

(** * Further properties of the component *)

(** ** [array_map] *)

Lemma array_map_Ok {A B} (f : A → nat → result B) (n : nat) (l : list A)
    (bs : list B) :
  array_map f n l = Ok bs
  ↔ length bs = length l
    ∧ ∀ i a, l !! i = Some a →
             ∃ b, f a (n + i)%nat = Ok b ∧ bs !! i = Some b.
Proof.
  revert n bs. induction l as [|a l IH]; intros n bs; simpl.
  - split.
    + intros [= <-]. split; [done|]. intros i a Hi. by destruct i.
    + intros [Hlen _]. by destruct bs.
  - split.
    + destruct (f a n) as [b0|e] eqn:Hfa; simpl; [|done].
      destruct (array_map f (S n) l) as [bs0|e] eqn:Hrest; simpl; [|done].
      intros [= <-]. apply IH in Hrest as [Hlen0 Hrest].
      split; [simpl; by rewrite Hlen0|].
      intros [|i] a' Hi; simpl in *.
      * simplify_eq. rewrite Nat.add_0_r. eauto.
      * replace (n + S i)%nat with (S n + i)%nat by lia. eauto.
    + intros [Hlen Hall]. destruct bs as [|b1 bs]; [done|].
      destruct (Hall 0%nat a eq_refl) as (b & Hb & Hb1).
      rewrite Nat.add_0_r in Hb. rewrite Hb. simpl in Hb1.
      injection Hb1 as <-. simpl.
      assert (array_map f (S n) l = Ok bs) as ->; [|done].
      apply IH. split; [by simplify_eq/=|]. intros i a' Hi.
      destruct (Hall (S i) a' Hi) as (b' & Hb' & Hlook).
      replace (n + S i)%nat with (S n + i)%nat in Hb' by lia. eauto.
Qed.

Lemma array_map_is_Ok {A B} (f : A → nat → result B) (n : nat) (l : list A) :
  (∃ bs, array_map f n l = Ok bs)
  ↔ ∀ i a, l !! i = Some a → ∃ b, f a (n + i)%nat = Ok b.
Proof.
  split.
  - intros [bs [_ Hall]%array_map_Ok] i a Hi.
    destruct (Hall i a Hi) as (b & Hb & _). eauto.
  - revert n. induction l as [|a l IH]; intros n Hall; simpl; [by eauto|].
    destruct (Hall 0%nat a eq_refl) as [b Hb]. rewrite Nat.add_0_r in Hb.
    rewrite Hb. simpl. destruct (IH (S n)) as [bs Hbs].
    { intros i a' Hi. destruct (Hall (S i) a' Hi) as [b' Hb'].
      replace (n + S i)%nat with (S n + i)%nat in Hb' by lia. eauto. }
    rewrite Hbs. simpl. eauto.
Qed.

(** ** Rendering *)

Lemma array_map_lookup {A B} (f : A → nat → result B) (l : list A)
    (bs : list B) (i : nat) (b : B) :
  array_map f 0 l = Ok bs → bs !! i = Some b →
  ∃ a, l !! i = Some a ∧ f a i = Ok b.
Proof.
  intros [Hlen Hall]%array_map_Ok Hb.
  destruct (lookup_lt_is_Some_2 l i) as [a Ha].
  { rewrite <- Hlen. by eapply lookup_lt_Some. }
  destruct (Hall i a Ha) as (b' & Hfa & Hb'). exists a. by simplify_eq/=.
Qed.

Lemma render_card_Ok b taskId idx card :
  render_card b taskId idx = Ok card
  ↔ (∃ task, tasks b !! taskId = Some task
             ∧ card = Card.mk (Task.id task) (Z.of_nat idx)
                        (Some (Task.content task)))
    ∨ (tasks b !! taskId = None ∧ inherited taskId = true
       ∧ card = Card.mk None (Z.of_nat idx) None).
Proof.
  unfold render_card, read_task. split.
  - destruct (tasks b !! taskId) as [task|]; [intros [= <-]; eauto|].
    destruct (inherited taskId); [intros [= <-]; eauto|done].
  - intros [(task & Ht & ->)|(Ht & Hin & ->)]; rewrite Ht; [done|].
    by rewrite Hin.
Qed.

Lemma render_column_Ok b colId idx cv :
  render_column b colId idx = Ok cv
  ↔ ∃ col cards,
      columns b !! colId = Some col
      ∧ array_map (render_card b) 0 (Column.taskIds col) = Ok cards
      ∧ cv = ColumnView.mk (Column.id col) (Column.title col)
               (Column.color col) (Column.accent col)
               (bool_decide (length (Column.taskIds col) = 0%nat)) cards.
Proof.
  unfold render_column. split.
  - destruct (columns b !! colId) as [col|]; simpl; [|done].
    destruct (array_map _ _ _) as [cards|e] eqn:Hcards; simpl; [|done].
    intros [= <-]. eauto.
  - intros (col & cards & Hk & Hcards & ->). rewrite Hk. simpl.
    by rewrite Hcards.
Qed.

Lemma render_cards_is_Ok b (ids : list string) :
  (∃ cards, array_map (render_card b) 0 ids = Ok cards)
  ↔ ∀ t, t ∈ ids → is_Some (tasks b !! t) ∨ inherited t = true.
Proof.
  rewrite array_map_is_Ok. split.
  - intros Hall t [i Hi]%list_elem_of_lookup.
    destruct (Hall i t Hi)
      as [card [(task & Ht & _)|(_ & Hin & _)]%render_card_Ok]; eauto.
  - intros Hall i t Hi.
    destruct (tasks b !! t) as [task|] eqn:Ht.
    + eexists. apply render_card_Ok. eauto.
    + destruct (Hall t) as [[task Htask]|Hin];
        [by eapply list_elem_of_lookup_2|congruence|].
      eexists. apply render_card_Ok. eauto.
Qed.

Lemma render_is_Ok b : (∃ views, render b = Ok views) ↔ renderable b.
Proof.
  unfold render, renderable. rewrite array_map_is_Ok. split.
  - intros Hall k [i Hi]%list_elem_of_lookup.
    destruct (Hall i k Hi) as [cv (col & cards & Hk & Hcards & _)
                                     %render_column_Ok].
    exists col. split; [done|]. apply render_cards_is_Ok. eauto.
  - intros Hall i k Hi.
    destruct (Hall k) as (col & Hk & Hknown);
      [by eapply list_elem_of_lookup_2|].
    apply render_cards_is_Ok in Hknown as [cards Hcards].
    eexists. apply render_column_Ok. eauto.
Qed.

Lemma render_droppableIds b views :
  column_ids_ok b → render b = Ok views →
  ColumnView.droppableId <$> views = columnOrder b.
Proof.
  intros Hids Hrender. apply list_eq. intros j. rewrite list_lookup_fmap.
  destruct (views !! j) as [cv|] eqn:Hcv; simpl.
  - destruct (array_map_lookup _ _ _ _ _ Hrender Hcv)
      as (k & Hk & (col & cards & Hcol & _ & ->)%render_column_Ok).
    simpl. by rewrite (Hids _ _ Hcol).
  - apply array_map_Ok in Hrender as [Hlen _]. symmetry.
    apply lookup_ge_None. rewrite <- Hlen. by apply lookup_ge_None.
Qed.

Lemma invariants_renderable b : invariants b → renderable b.
Proof.
  intros (H1 & _ & _ & Hperm) k Hk.
  rewrite Hperm in Hk. apply elem_of_elements, elem_of_dom in Hk as [col Hcol].
  exists col. split; [done|]. intros t Ht. left. by eapply H1.
Qed.

Lemma apply_op_columnOrder b o b' :
  apply_op b o = Ok b' → columnOrder b' = columnOrder b.
Proof.
  destruct o as [c content now|t content c now|t c|t s si d di]; simpl.
  - rewrite createTask_eq. destruct (String.eqb _ _); [by intros [= <-]|].
    by intros (col & _ & ->)%create_updater_Some.
  - rewrite editTask_eq. destruct (String.eqb _ _); [by intros [= <-]|].
    destruct (String.eqb _ _); [|by intros [= <-]].
    by intros (col & _ & ->)%create_updater_Some.
  - rewrite deleteTask_eq. by intros (col & _ & ->)%delete_updater_Some.
  - rewrite moveTask_eq. destruct (bool_decide _); [by intros [= <-]|].
    unfold drag_updater. simpl.
    destruct (same_column _ _ _), (columns b !! s), (columns b !! d);
      simpl; intros Heq; by inversion Heq.
Qed.

Lemma steps_invariant (P : BoardData → op → Prop) (I : BoardData → Prop)
    b0 ops b :
  (∀ b o b', I b → P b o → apply_op b o = Ok b' → I b') →
  I b0 → steps P b0 ops b → I b.
Proof.
  intros Hstep H0 Hsteps.
  induction Hsteps as [b0|b0 ops b' o b'' _ IH HP Hop]; [done|].
  by eapply Hstep; [apply IH| |].
Qed.

(** *** When the board renders (X1) *)

(** X1.  [render] succeeds exactly when every id of [columnOrder] is a key
    of [columns] and every task id those columns list is a key of [tasks] or
    the name of a member of [Object.prototype]; otherwise it raises
    [TypeError] (reading a property of [undefined]). *)
Theorem render_succeeds_iff_renderable b :
  ((∃ views, render b = Ok views) ↔ renderable b)
  ∧ (render b = Throw TypeError ↔ ¬ renderable b).
Proof.
  split; [apply render_is_Ok|].
  rewrite <- render_is_Ok. destruct (render b) as [views|[]].
  - split; [done|]. intros Hno. destruct Hno. eauto.
  - split; [|done]. by intros _ [views ?].
Qed.

(** *** The board renders after every valid run (X2) *)

(** X2.  After a run from the initial board in which every operation meets
    its preconditions and every creation gets an unused id, [render]
    succeeds and shows the three default columns in their order. *)
Theorem render_after_valid_run ops b :
  steps (λ b o, valid_op b o ∧ fresh_op b o) initial_board ops b →
  ∃ views, render b = Ok views
           ∧ ColumnView.droppableId <$> views = ["todo"; "inprogress"; "done"].
Proof.
  intros Hsteps.
  destruct (steps_board_ok _ _ _ initial_board_ok Hsteps) as (Hinv & Hids & _).
  destruct (proj2 (render_is_Ok b) (invariants_renderable _ Hinv))
    as [views Hviews].
  exists views. split; [done|].
  rewrite (render_droppableIds _ _ Hids Hviews).
  apply (steps_invariant _
           (λ b, columnOrder b = ["todo"; "inprogress"; "done"])
           _ _ _) in Hsteps; [done| |done].
  intros b1 o b2 Hb1 _ Hop. by rewrite (apply_op_columnOrder _ _ _ Hop).
Qed.

Lemma render_after_valid_run_witness :
  ∃ views, render (after initial_board [first_create]) = Ok views
           ∧ ColumnView.droppableId <$> views = ["todo"; "inprogress"; "done"].
Proof.
  apply (render_after_valid_run [first_create]).
  apply (steps_snoc _ initial_board [] initial_board first_create).
  - constructor.
  - split; [split; [by eexists|done]|reflexivity].
  - reflexivity.
Defined.

(** *** A delete through the wrong column (X3) *)

(** X3.  If a shown column other than [columnId] lists [taskId], and
    [taskId] is not the name of a member of [Object.prototype], the delete
    request [(taskId, columnId)] succeeds and leaves a board that no longer
    renders: the other column still lists the id, [tasks] has lost it, and
    [render] raises [TypeError]. *)
Theorem render_raises_after_delete_through_other_column b taskId columnId col
    k other :
  columns b !! columnId = Some col →
  k ≠ columnId → k ∈ columnOrder b → columns b !! k = Some other →
  taskId ∈ Column.taskIds other → inherited taskId = false →
  ∃ b', deleteTask b taskId columnId = Ok b'
        ∧ render b' = Throw TypeError.
Proof.
  intros Hc Hne Hk Hother Hin Hown. rewrite (deleteTask_Ok _ _ _ _ Hc).
  eexists. split; [done|].
  destruct (render _) as [views|[]] eqn:Hrender; [|done].
  destruct (proj1 (render_is_Ok _) (ex_intro _ views Hrender) k Hk)
    as (other' & Hother' & Hknown).
  simpl in Hother'. rewrite lookup_insert_ne in Hother' by done.
  simplify_eq. destruct (Hknown taskId Hin) as [[task Htask]|Hinh].
  - simpl in Htask. by rewrite lookup_delete_eq in Htask.
  - congruence.
Qed.

Lemma render_raises_after_delete_through_other_column_witness :
  ∃ b', deleteTask board_a_twice "a" "todo" = Ok b'
        ∧ render b' = Throw TypeError.
Proof.
  apply (render_raises_after_delete_through_other_column board_a_twice "a"
           "todo" (todo_column ["a"]) "done" (done_column ["a"]));
    [reflexivity|done|by_computation|reflexivity|apply list_elem_of_here
    |reflexivity].
Defined.

(** *** What a card says about the board (X4) *)

(** X4.  On a board whose columns and tasks are filed under their own ids,
    the card shown at position [i] of the [j]-th column stands for the id at
    index [i] of that column's [taskIds], and its [index] is [i].  If the id
    is a key of [tasks], the card's [draggableId] is that id and its text is
    the task's content: a drag report, an edit or a delete started from the
    card names the column that lists the task and the index it has there.
    If the id is not a key of [tasks] (it then names a member of
    [Object.prototype]), the card has neither [draggableId] nor text. *)
Theorem shown_card_matches_board b views (j i : nat) cv card :
  column_ids_ok b → tasks_filed_ok b →
  render b = Ok views → views !! j = Some cv →
  ColumnView.cards cv !! i = Some card →
  ∃ col taskId,
    columnOrder b !! j = Some (ColumnView.droppableId cv)
    ∧ columns b !! ColumnView.droppableId cv = Some col
    ∧ Card.index card = Z.of_nat i
    ∧ at_index (Column.taskIds col) (Card.index card) = Some taskId
    ∧ match tasks b !! taskId with
      | Some task =>
          Card.draggableId card = Some taskId
          ∧ Card.content card = Some (Task.content task)
      | None =>
          inherited taskId = true
          ∧ Card.draggableId card = None ∧ Card.content card = None
      end.
Proof.
  intros Hids Hfiled Hrender Hcv Hcard.
  destruct (array_map_lookup _ _ _ _ _ Hrender Hcv)
    as (k & Hk & (col & cards & Hcol & Hcards & ->)%render_column_Ok).
  simpl in *.
  destruct (array_map_lookup _ _ _ _ _ Hcards Hcard) as (t & Ht & Hshown).
  exists col, t. rewrite (Hids _ _ Hcol).
  assert (at_index (Column.taskIds col) (Z.of_nat i) = Some t) as Hat.
  { apply at_index_Some. split; [lia|]. by rewrite Nat2Z.id. }
  apply render_card_Ok in Hshown as [(task & Htask & ->)|(Hnone & Hinh & ->)];
    simpl.
  - rewrite Htask. split_and!; try done. apply (Hfiled _ _ Htask).
  - rewrite Hnone. by split_and!.
Qed.

Lemma shown_card_matches_board_witness :
  ∃ col taskId,
    columns board_abc !! "todo" = Some col
    ∧ at_index (Column.taskIds col) 1 = Some taskId.
Proof.
  destruct (shown_card_matches_board board_abc (shown board_abc) 0 1
              (ColumnView.mk "todo" "To Do" "bg-blue-100" "bg-blue-500" false
                 [Card.mk (Some "a") 0 (Some "a");
                  Card.mk (Some "b") 1 (Some "b");
                  Card.mk (Some "c") 2 (Some "c")])
              (Card.mk (Some "b") 1 (Some "b")))
    as (col & taskId & _ & Hcol & _ & Hat & _);
    [by_computation|by_computation|reflexivity|reflexivity|reflexivity|].
  exists col, taskId. split; [exact Hcol|exact Hat].
Defined.

(** ** What valid operations keep *)

Lemma apply_op_tasks_filed_ok b o b' :
  tasks_filed_ok b → valid_op b o → apply_op b o = Ok b' → tasks_filed_ok b'.
Proof.
  intros Hfiled.
  assert (∀ id content columnId,
            create_updater id content columnId b = Ok b' →
            tasks_filed_ok b') as Hcreate.
  { intros id content columnId (col & _ & ->)%create_updater_Some.
    unfold tasks_filed_ok. simpl. by apply map_Forall_insert_2. }
  destruct o as [c content now|t content c now|t c|t s si d di]; simpl.
  - intros _. rewrite createTask_eq.
    destruct (String.eqb _ _); [by intros [= <-]|by eauto].
  - intros [[task Ht] _]. rewrite editTask_eq.
    destruct (String.eqb _ _); [by intros [= <-]|].
    destruct (String.eqb _ _); [by eauto|]. intros [= <-].
    unfold tasks_filed_ok. simpl. apply map_Forall_insert_2; [|done].
    rewrite Ht. simpl. by apply (Hfiled _ _ Ht).
  - intros _. rewrite deleteTask_eq.
    intros (col & _ & ->)%delete_updater_Some.
    unfold tasks_filed_ok. simpl. by apply map_Forall_delete.
  - intros _. rewrite moveTask_eq.
    destruct (bool_decide _); [by intros [= <-]|].
    intros Htasks%drag_updater_tasks. unfold tasks_filed_ok.
    by rewrite Htasks.
Qed.

(** X5.  Operations that meet their preconditions keep every task filed
    under its own id: on a run of such operations from a board where each
    entry of [tasks] carries its key as [id], this is so on the board
    reached.  (No condition on the clock is needed.) *)
Theorem tasks_stay_filed_under_their_ids b0 ops b :
  tasks_filed_ok b0 → steps valid_op b0 ops b → tasks_filed_ok b.
Proof.
  intros H0 Hsteps. eapply (steps_invariant valid_op tasks_filed_ok); eauto.
  intros b1 o b2. apply apply_op_tasks_filed_ok.
Qed.

Lemma tasks_stay_filed_under_their_ids_witness :
  tasks_filed_ok (after initial_board same_clock_run).
Proof.
  apply (tasks_stay_filed_under_their_ids initial_board same_clock_run).
  - by_computation.
  - apply same_clock_run_steps.
Defined.

(** ** When an operation raises *)

Lemma drag_updater_Throw b taskId s si d di :
  drag_updater taskId (DraggableLocation.mk s si) (DraggableLocation.mk d di) b
  = Throw TypeError
  ↔ columns b !! s = None ∨ columns b !! d = None.
Proof.
  unfold drag_updater, same_column. simpl.
  destruct (columns b !! s) as [cs|], (columns b !! d) as [cd|]; simpl;
    try destruct (bool_decide _); simpl; naive_solver.
Qed.

(** X6.  The only exception is [TypeError], and it is raised exactly when a
    column the operation has to read is not on the board: a creation with
    content that is not blank into a missing column; an edit with an empty
    task id (taken for a creation) under the same conditions; a delete
    through a missing column; a move, other than one with equal source and
    destination, from or to a missing column.  An edit with a non-empty id
    never raises. *)
Theorem operations_raise_iff_column_missing b :
  (∀ c content now,
     createTask b c content now = Throw TypeError
     ↔ trim content ≠ "" ∧ columns b !! c = None)
  ∧ (∀ t content c now,
       editTask b t content c now = Throw TypeError
       ↔ trim content ≠ "" ∧ t = "" ∧ columns b !! c = None)
  ∧ (∀ t c, deleteTask b t c = Throw TypeError ↔ columns b !! c = None)
  ∧ (∀ t s si d di,
       moveTask b t s si d di = Throw TypeError
       ↔ ¬ (d = s ∧ di = si)
         ∧ (columns b !! s = None ∨ columns b !! d = None)).
Proof.
  assert (∀ id content c,
            create_updater id content c b = Throw TypeError
            ↔ columns b !! c = None) as Hcreate.
  { intros id content c. unfold create_updater.
    by destruct (columns b !! c). }
  split_and!.
  - intros c content now. rewrite createTask_eq.
    destruct (String.eqb_spec (trim content) ""); [naive_solver|].
    rewrite Hcreate. naive_solver.
  - intros t content c now. rewrite editTask_eq.
    destruct (String.eqb_spec (trim content) ""); [naive_solver|].
    destruct (String.eqb_spec t ""); [rewrite Hcreate|]; naive_solver.
  - intros t c. rewrite deleteTask_eq. unfold delete_updater.
    by destruct (columns b !! c).
  - intros t s si d di. rewrite moveTask_eq. case_bool_decide as Hnoop.
    + naive_solver.
    + rewrite drag_updater_Throw. naive_solver.
Qed.

(** ** The columns are fixed *)

Lemma heading_insert (cols : gmap string Column.t) c col ids k :
  cols !! c = Some col →
  heading <$> <[c := Column.with_taskIds col ids]> cols !! k
  = heading <$> cols !! k.
Proof.
  intros Hc. destruct (decide (k = c)) as [->|Hne].
  - by rewrite lookup_insert_eq, Hc.
  - by rewrite lookup_insert_ne.
Qed.

Lemma drag_updater_inv b taskId s si d di b' :
  drag_updater taskId (DraggableLocation.mk s si) (DraggableLocation.mk d di) b
  = Ok b' →
  ∃ cs cd, columns b !! s = Some cs ∧ columns b !! d = Some cd.
Proof.
  intros Hb'.
  destruct (columns b !! s) as [cs|] eqn:Hs, (columns b !! d) as [cd|] eqn:Hd;
    [by eauto|..];
    assert (drag_updater taskId (DraggableLocation.mk s si)
              (DraggableLocation.mk d di) b = Throw TypeError) as Hthrow
      by (apply drag_updater_Throw; auto);
    by rewrite Hthrow in Hb'.
Qed.

(** X7.  No operation adds, removes, renames or restyles a column: on a
    board whose columns are filed under their ids, an operation that
    succeeds leaves [columnOrder] as it was and, under every key, a column
    with the same [id], [title], [color] and [accent] (and no column where
    there was none).  Only [taskIds] can differ. *)
Theorem columns_are_fixed b o b' :
  column_ids_ok b → apply_op b o = Ok b' →
  columnOrder b' = columnOrder b
  ∧ ∀ k, heading <$> columns b' !! k = heading <$> columns b !! k.
Proof.
  intros Hids Hop. split; [by eapply apply_op_columnOrder|]. intros k.
  assert (∀ id content c,
            create_updater id content c b = Ok b' →
            heading <$> columns b' !! k = heading <$> columns b !! k)
    as Hcreate.
  { intros id content c (col & Hc & ->)%create_updater_Some. simpl.
    by apply heading_insert. }
  destruct o as [c content now|t content c now|t c|t s si d di];
    simpl in Hop.
  - rewrite createTask_eq in Hop.
    destruct (String.eqb _ _); [by simplify_eq|by eauto].
  - rewrite editTask_eq in Hop.
    destruct (String.eqb _ _); [by simplify_eq|].
    destruct (String.eqb _ _); [by eauto|]. by injection Hop as <-.
  - rewrite deleteTask_eq in Hop.
    apply delete_updater_Some in Hop as (col & Hc & ->). simpl.
    by apply heading_insert.
  - rewrite moveTask_eq in Hop.
    destruct (bool_decide _); [by simplify_eq|].
    destruct (drag_updater_inv _ _ _ _ _ _ _ Hop) as (cs & cd & Hs & Hd).
    destruct (decide (s = d)) as [<-|Hne].
    + rewrite (drag_updater_same_column _ _ _ _ _ _ Hs (Hids _ _ Hs)) in Hop.
      injection Hop as <-. simpl. by apply heading_insert.
    + rewrite (drag_updater_cross_column _ _ _ _ _ _ _ _ Hne Hs (Hids _ _ Hs)
                 Hd (Hids _ _ Hd)) in Hop.
      injection Hop as <-. simpl.
      rewrite heading_insert by (by rewrite lookup_insert_ne).
      by apply heading_insert.
Qed.

Lemma columns_are_fixed_witness :
  columnOrder (after initial_board [first_create]) = columnOrder initial_board
  ∧ ∀ k, heading <$> columns (after initial_board [first_create]) !! k
         = heading <$> columns initial_board !! k.
Proof.
  apply (columns_are_fixed initial_board first_create);
    [by_computation|reflexivity].
Defined.

(** ** One valid operation *)

(** X8.  On any board that satisfies the three invariants, files its
    columns under their ids and has no task with the empty id (the initial
    board, or one read back from storage), an operation that meets its
    preconditions and, if it is a creation, gets an unused id does not
    raise, and the board it leaves satisfies all of that again. *)
Theorem valid_fresh_operation_keeps_board_ok b o :
  board_ok b → valid_op b o → fresh_op b o →
  ∃ b', apply_op b o = Ok b' ∧ board_ok b'.
Proof.
  intros Hok Hvalid Hfresh.
  destruct (valid_op_Ok b o (proj2 (proj2 Hok)) Hvalid) as [b' Hb'].
  exists b'. split; [done|]. by eapply apply_op_board_ok.
Qed.

Lemma valid_fresh_operation_keeps_board_ok_witness :
  ∃ b', apply_op initial_board first_create = Ok b' ∧ board_ok b'.
Proof.
  apply (valid_fresh_operation_keeps_board_ok initial_board first_create).
  - apply initial_board_ok.
  - split; [by eexists|done].
  - reflexivity.
Defined.

(** ** Operations that undo each other *)

Lemma board_eq b0 b newTasks newColumns :
  columnOrder b0 = columnOrder b →
  newTasks = tasks b → newColumns = columns b →
  with_tasks_columns b0 newTasks newColumns = b.
Proof. unfold with_tasks_columns. intros -> -> ->. by destruct b. Qed.

Lemma with_taskIds_twice col ids ids' :
  Column.with_taskIds (Column.with_taskIds col ids) ids'
  = Column.with_taskIds col ids'.
Proof. done. Qed.

Lemma remove_at_insert_at {A} (l : list A) (i : nat) (x : A) :
  (i ≤ length l)%nat → remove_at i (insert_at i x l) = l.
Proof.
  intros Hi. unfold remove_at, insert_at.
  rewrite take_app_le by (rewrite length_take; lia).
  rewrite take_take, Nat.min_id.
  rewrite drop_app_ge by (rewrite length_take; lia).
  rewrite length_take, Nat.min_l by lia.
  replace (S i - i)%nat with 1%nat by lia. simpl.
  by rewrite drop_0, take_drop.
Qed.

Lemma insert_at_lookup {A} (l : list A) (i : nat) (x : A) :
  (i ≤ length l)%nat → insert_at i x l !! i = Some x.
Proof.
  intros Hi. unfold insert_at.
  rewrite lookup_app_r by (rewrite length_take; lia).
  rewrite length_take, Nat.min_l by lia. by rewrite Nat.sub_diag.
Qed.

(** X9.  Deleting a task right after creating it gives back the board: on a
    board whose columns list known tasks only, a creation that gets an
    unused id, followed by the delete of that id through the same column,
    returns exactly the board before the creation. *)
Theorem delete_undoes_create b columnId col content now :
  invariant1 b → columns b !! columnId = Some col → trim content ≠ "" →
  tasks b !! new_task_id now = None →
  ∃ b1, createTask b columnId content now = Ok b1
        ∧ deleteTask b1 (new_task_id now) columnId = Ok b.
Proof.
  intros H1 Hc Hs Hfresh. rewrite (createTask_Ok _ _ _ _ _ Hc Hs).
  eexists. split; [done|].
  erewrite deleteTask_Ok by (simpl; apply lookup_insert_eq).
  f_equal. simpl. apply board_eq; [done| |].
  - by rewrite delete_insert_id.
  - assert (new_task_id now ∉ Column.taskIds col) as Hnotin.
    { intros Hin. destruct (H1 _ _ _ Hc Hin) as [task Htask]. congruence. }
    rewrite insert_insert_eq, with_taskIds_twice.
    rewrite filter_cons_False by (by intros []).
    rewrite (filter_absent _ _ Hnotin), with_taskIds_same.
    by apply insert_id.
Qed.

Lemma delete_undoes_create_witness :
  ∃ b1, createTask initial_board "todo" "x" 1000 = Ok b1
        ∧ deleteTask b1 (new_task_id 1000) "todo" = Ok initial_board.
Proof.
  apply (delete_undoes_create initial_board "todo" (todo_column []));
    [apply initial_board_invariants|reflexivity|done|reflexivity].
Defined.

(** X10.  Moving a task to another column and back restores the board: for
    a report that addresses the task in [s] and a destination index inside
    [d], the move followed by the reverse report (from [d] at the
    destination index, to [s] at the source index) returns exactly the
    board before. *)
Theorem move_back_across_columns b taskId s d cs cd (si di : Z) :
  column_ids_ok b → s ≠ d →
  columns b !! s = Some cs → columns b !! d = Some cd →
  at_index (Column.taskIds cs) si = Some taskId →
  (0 ≤ di ≤ Z.of_nat (length (Column.taskIds cd)))%Z →
  ∃ b1, moveTask b taskId s si d di = Ok b1
        ∧ moveTask b1 taskId d di s si = Ok b.
Proof.
  intros Hids Hne Hs Hd [Hsi Hat]%at_index_Some Hdi.
  rewrite moveTask_eq, bool_decide_eq_false_2 by (by intros [? _]).
  rewrite (drag_updater_cross_column _ _ _ _ _ _ _ _ Hne Hs (Hids _ _ Hs) Hd
             (Hids _ _ Hd)).
  eexists. split; [done|].
  rewrite moveTask_eq, bool_decide_eq_false_2 by (by intros [? _]).
  erewrite (drag_updater_cross_column _ _ d s);
    [|done
     |simpl; apply lookup_insert_eq
     |simpl; apply (Hids _ _ Hd)
     |simpl; rewrite lookup_insert_ne by done; apply lookup_insert_eq
     |simpl; apply (Hids _ _ Hs)].
  f_equal. simpl. apply board_eq; [done|done|].
  rewrite !with_taskIds_twice.
  rewrite !splice_remove, !splice_insert by lia.
  rewrite remove_at_insert_at by lia.
  rewrite (insert_at_remove_at _ _ _ Hat), !with_taskIds_same.
  apply map_eq. intros k.
  destruct (decide (k = s)) as [->|Hks]; [by rewrite lookup_insert_eq|].
  rewrite lookup_insert_ne by done.
  destruct (decide (k = d)) as [->|Hkd]; [by rewrite lookup_insert_eq|].
  by rewrite !lookup_insert_ne.
Qed.

Lemma move_back_across_columns_witness :
  ∃ b1, moveTask board_ab_c "a" "todo" 0 "done" 1 = Ok b1
        ∧ moveTask b1 "a" "done" 1 "todo" 0 = Ok board_ab_c.
Proof.
  apply (move_back_across_columns board_ab_c "a" "todo" "done"
           (todo_column ["a"; "b"]) (done_column ["c"]));
    [by_computation|done|reflexivity|reflexivity|reflexivity|simpl; lia].
Defined.

(** X11.  Moving a task inside its column and back restores the board: for
    a report that addresses the task and a destination index inside the
    column, the move followed by the report with the two indices swapped
    returns exactly the board before. *)
Theorem move_back_within_column b taskId c col (si di : Z) :
  columns b !! c = Some col → Column.id col = c →
  at_index (Column.taskIds col) si = Some taskId →
  (0 ≤ di < Z.of_nat (length (Column.taskIds col)))%Z →
  ∃ b1, moveTask b taskId c si c di = Ok b1
        ∧ moveTask b1 taskId c di c si = Ok b.
Proof.
  intros Hc Hid [Hsi Hat]%at_index_Some Hdi.
  pose proof (lookup_lt_Some _ _ _ Hat) as Hlt.
  destruct (decide (di = si)) as [->|Hmove].
  { exists b. rewrite moveTask_eq, bool_decide_eq_true_2 by done. done. }
  rewrite moveTask_eq, bool_decide_eq_false_2 by (by intros [_ ?]).
  rewrite (drag_updater_same_column _ _ _ _ _ _ Hc Hid).
  eexists. split; [done|].
  rewrite moveTask_eq, bool_decide_eq_false_2 by (by intros [_ ?]).
  erewrite drag_updater_same_column;
    [|simpl; apply lookup_insert_eq|done].
  f_equal. simpl. apply board_eq; [done|done|].
  rewrite insert_insert_eq, with_taskIds_twice.
  rewrite !splice_remove, !splice_insert by lia.
  rewrite remove_at_insert_at by (rewrite length_remove_at; lia).
  rewrite (insert_at_remove_at _ _ _ Hat), with_taskIds_same.
  by apply insert_id.
Qed.

Lemma move_back_within_column_witness :
  ∃ b1, moveTask board_abc "b" "todo" 1 "todo" 0 = Ok b1
        ∧ moveTask b1 "b" "todo" 0 "todo" 1 = Ok board_abc.
Proof.
  apply (move_back_within_column board_abc "b" "todo"
           (todo_column ["a"; "b"; "c"]));
    [reflexivity|reflexivity|reflexivity|simpl; lia].
Defined.

(** X12.  A delete request repeated is a no-op: the second run of a delete
    that succeeded returns the board the first one left. *)
Theorem deleteTask_twice b taskId columnId b' :
  deleteTask b taskId columnId = Ok b' →
  deleteTask b' taskId columnId = Ok b'.
Proof.
  rewrite deleteTask_eq. intros (col & Hc & ->)%delete_updater_Some.
  erewrite deleteTask_Ok by (simpl; apply lookup_insert_eq).
  f_equal. simpl. unfold with_tasks_columns. simpl. f_equal.
  - apply delete_delete_eq.
  - rewrite insert_insert_eq, with_taskIds_twice. do 2 f_equal.
    apply filter_absent. intros [Hne _]%list_elem_of_filter. done.
Qed.

Lemma deleteTask_twice_witness :
  ∃ b', deleteTask board_abc "b" "todo" = Ok b'
        ∧ deleteTask b' "b" "todo" = Ok b'.
Proof.
  eexists. split; [reflexivity|].
  apply (deleteTask_twice board_abc). reflexivity.
Defined.

(** ** Moves that fit the board keep every id *)

(** X13.  A report whose source index addresses the moved task never loses
    or doubles an id, whatever the destination index is (negative or past
    the end included): inside one column the new sequence is a permutation
    of the old one; across columns the source loses exactly the task and
    the destination gains exactly it.  [tasks] is untouched. *)
Theorem consistent_move_keeps_ids b taskId s d cs cd (si di : Z) :
  column_ids_ok b →
  columns b !! s = Some cs → columns b !! d = Some cd →
  at_index (Column.taskIds cs) si = Some taskId →
  ∃ b', moveTask b taskId s si d di = Ok b'
    ∧ tasks b' = tasks b
    ∧ (s = d →
         ∃ col', columns b' !! s = Some col'
                 ∧ Column.taskIds col' ≡ₚ Column.taskIds cs)
    ∧ (s ≠ d →
         ∃ cs' cd', columns b' !! s = Some cs' ∧ columns b' !! d = Some cd'
                    ∧ Column.taskIds cs ≡ₚ taskId :: Column.taskIds cs'
                    ∧ Column.taskIds cd' ≡ₚ taskId :: Column.taskIds cd).
Proof.
  intros Hids Hs Hd [Hsi Hat]%at_index_Some.
  pose proof (remove_at_Permutation _ _ _ Hat) as Hsrc.
  rewrite moveTask_eq. case_bool_decide as Hnoop.
  { exists b. split_and!; [done|done| |by destruct Hnoop as [-> _]].
    intros _. by exists cs. }
  destruct (decide (s = d)) as [<-|Hne].
  - rewrite (drag_updater_same_column _ _ _ _ _ _ Hs (Hids _ _ Hs)).
    eexists. split_and!; [done|done| |done].
    intros _. eexists. split; [apply lookup_insert_eq|]. simpl.
    rewrite splice_insert_Permutation, splice_remove by done. by symmetry.
  - rewrite (drag_updater_cross_column _ _ _ _ _ _ _ _ Hne Hs (Hids _ _ Hs) Hd
               (Hids _ _ Hd)).
    eexists. split_and!; [done|done|done|].
    intros _. eexists _, _. simpl.
    rewrite lookup_insert_eq, lookup_insert_ne, lookup_insert_eq by done.
    split_and!; [done|done|..]; simpl.
    + by rewrite splice_remove.
    + apply splice_insert_Permutation.
Qed.

Lemma consistent_move_keeps_ids_witness :
  ∃ b' cd', moveTask board_ab_c "a" "todo" 0 "done" (-7) = Ok b'
            ∧ columns b' !! "done" = Some cd'
            ∧ Column.taskIds cd' ≡ₚ ["a"; "c"].
Proof.
  destruct (consistent_move_keeps_ids board_ab_c "a" "todo" "done"
              (todo_column ["a"; "b"]) (done_column ["c"]) 0 (-7))
    as (b' & Hb' & _ & _ & Hcross);
    [by_computation|reflexivity|reflexivity|reflexivity|].
  destruct Hcross as (cs' & cd' & _ & Hcd' & _ & Hperm); [done|].
  exists b', cd'. split_and!; [exact Hb'|exact Hcd'|exact Hperm].
Defined.

(** ** The modal *)

Lemma task_eta task :
  Task.mk (Task.id task) (Task.content task) = task.
Proof. by destruct task. Qed.

(** X14.  Opening the edit modal for a task and saving without typing
    changes nothing: for a task on the board with a non-empty id and
    content that is not blank, [openEditTaskModal] followed by
    [handleModalSave] leaves the board as it was and the modal closed. *)
Theorem save_without_typing_changes_nothing st taskId columnId task now :
  tasks (board st) !! taskId = Some task → taskId ≠ "" →
  trim (Task.content task) ≠ "" →
  (let! st1 := openEditTaskModal taskId columnId st in handleModalSave now st1)
  = Ok (closeModal st).
Proof.
  intros Ht Hid Hs. unfold openEditTaskModal, read_task. rewrite Ht. simpl.
  unfold handleModalSave. simpl. rewrite (trim_nonblank_eqb _ Hs).
  destruct (String.eqb_spec taskId "") as [|_]; [done|]. simpl.
  unfold closeModal, with_tasks, with_tasks_columns. simpl.
  rewrite Ht. simpl. rewrite task_eta, (insert_id _ _ _ Ht).
  by destruct st as [[] ? ? ?].
Qed.

Lemma save_without_typing_changes_nothing_witness :
  (let! st1 := openEditTaskModal "b" "todo" (idle board_abc) in
   handleModalSave 5 st1)
  = Ok (closeModal (idle board_abc)).
Proof.
  apply (save_without_typing_changes_nothing (idle board_abc) "b" "todo"
           (Task.mk (Some "b") "b")); [reflexivity|done|done].
Defined.

(** X15.  If a task is deleted while its edit modal is open, saving the
    modal brings back an entry without the task.  Run in this order on a
    board that satisfies the invariants, for a task listed by [columnId]:
    [openEditTaskModal], [handleDeleteTask] and [confirmDelete] for the same
    task, [onChange] with text that is not blank, [handleModalSave].  No
    handler raises; afterwards [tasks] has an entry under the id that holds
    the text and no [id] property, no column lists the id, and the second
    invariant is lost. *)
Theorem save_after_delete_leaves_orphan st taskId columnId task col value now :
  invariants (board st) →
  tasks (board st) !! taskId = Some task →
  columns (board st) !! columnId = Some col →
  taskId ∈ Column.taskIds col →
  taskId ≠ "" → trim value ≠ "" →
  ∃ st',
    (let! st1 := openEditTaskModal taskId columnId st in
     let! st2 := confirmDelete (handleDeleteTask taskId columnId st1) in
     handleModalSave now (onChange value st2)) = Ok st'
    ∧ tasks (board st') !! taskId = Some (Task.mk None value)
    ∧ (∀ k, ¬ task_in_column (board st') taskId k)
    ∧ ¬ invariant2 (board st').
Proof.
  intros Hinv%well_formed_invariants Ht Hc Hin Hid Hs.
  destruct Hinv as [_ _ Hone _ _].
  unfold openEditTaskModal, read_task. rewrite Ht. simpl.
  unfold confirmDelete, setBoard, delete_updater. simpl. rewrite Hc. simpl.
  unfold handleModalSave. simpl. rewrite (trim_nonblank_eqb _ Hs).
  destruct (String.eqb_spec taskId "") as [|_]; [done|]. simpl.
  eexists. split; [done|]. simpl. rewrite lookup_delete_eq. simpl.
  assert (∀ k, ¬ listed
                   (<[columnId :=
                        Column.with_taskIds col
                          (filter (λ id, id ≠ taskId) (Column.taskIds col))]>
                      (columns (board st))) taskId k) as Hnone.
  { intros k [[-> Hk]|[Hne Hk]]%listed_insert.
    - simpl in Hk. by apply list_elem_of_filter in Hk as [? _].
    - apply Hne, (Hone taskId); [done|by exists col]. }
  split_and!; [apply lookup_insert_eq|done|].
  intros H2. destruct (H2 taskId) as (k & col' & Hk & Hocc & _).
  { simpl. rewrite lookup_insert_eq. by eexists. }
  apply (Hnone k). exists col'. split; [done|].
  destruct (decide (taskId ∈ Column.taskIds col')) as [|Hnotin]; [done|].
  apply occurrences_zero in Hnotin. lia.
Qed.

Lemma save_after_delete_leaves_orphan_witness :
  ∃ st',
    (let! st1 := openEditTaskModal "task-1000" "todo"
                   (idle (after initial_board [first_create])) in
     let! st2 := confirmDelete (handleDeleteTask "task-1000" "todo" st1) in
     handleModalSave 2000 (onChange "z" st2)) = Ok st'
    ∧ tasks (board st') !! "task-1000" = Some (Task.mk None "z")
    ∧ ¬ invariant2 (board st').
Proof.
  destruct (save_after_delete_leaves_orphan
              (idle (after initial_board [first_create])) "task-1000" "todo"
              (Task.mk (Some "task-1000") "x") (todo_column ["task-1000"])
              "z" 2000)
    as (st' & Hst' & Hentry & _ & Hlost).
  - apply (invariants_kept_while_ids_fresh [first_create]).
    apply (steps_snoc _ initial_board [] initial_board first_create).
    + constructor.
    + split; [split; [by eexists|done]|reflexivity].
    + reflexivity.
  - reflexivity.
  - reflexivity.
  - apply list_elem_of_here.
  - done.
  - done.
  - exists st'. split_and!; [exact Hst'|exact Hentry|exact Hlost].
Defined.

(** X16.  The three ways to save, from any state of the component.  Typing
    [value] into the modal opened by [openNewTaskModal] and saving does to
    the board what [createTask] does; if [value] is blank the state stays as
    it is after typing (modal open), otherwise a save that does not raise
    closes the modal, forgets its content and leaves a pending delete as it
    was. *)
Theorem new_task_modal_flow st columnId value now :
  let typed := onChange value (openNewTaskModal columnId st) in
  result_map board (handleModalSave now typed)
  = createTask (board st) columnId value now
  ∧ (trim value = "" → handleModalSave now typed = Ok typed)
  ∧ (trim value ≠ "" →
     ∀ st', handleModalSave now typed = Ok st' →
            showModal st' = false ∧ modalTask st' = None
            ∧ deleting st' = deleting st).
Proof.
  simpl. rewrite createTask_eq. unfold handleModalSave, setBoard. simpl.
  split_and!.
  - destruct (String.eqb _ _); [done|].
    by destruct (create_updater _ _ _ _).
  - by intros ->.
  - intros Hs st'. rewrite (trim_nonblank_eqb _ Hs).
    destruct (create_updater _ _ _ _); simpl; [|done]. by intros [= <-].
Qed.

(** ** Blank content *)

Lemma all_white_space_cons a s :
  all_white_space (String a s) = is_white_space a && all_white_space s.
Proof. done. Qed.

Lemma trimStart_white_space s :
  all_white_space (trimStart s) = all_white_space s.
Proof.
  induction s as [|a s IH]; [done|]. simpl.
  destruct (is_white_space a) eqn:Ha; [|done].
  by rewrite all_white_space_cons, Ha.
Qed.

Lemma trimEnd_empty s : trimEnd s = "" ↔ all_white_space s = true.
Proof.
  induction s as [|a s IH]; [done|]. simpl. rewrite all_white_space_cons.
  destruct (is_white_space a); simpl; [|done].
  rewrite <- IH. by destruct (String.eqb_spec (trimEnd s) "").
Qed.

Lemma trim_empty s : trim s = "" ↔ all_white_space s = true.
Proof. unfold trim. by rewrite trimEnd_empty, trimStart_white_space. Qed.

(** X17.  With the modal open, [handleModalSave] leaves the state exactly as
    it is if and only if the content consists of white space only (or is
    empty): such a save is ignored, any other save either raises or closes
    the modal. *)
Theorem save_ignored_iff_all_white_space st mt now :
  modalTask st = Some mt →
  handleModalSave now st = Ok st
  ↔ ∃ content, ModalTask.content mt = Some content
               ∧ all_white_space content = true.
Proof.
  intros Hmt. unfold handleModalSave. rewrite Hmt.
  destruct (ModalTask.content mt) as [content|]; simpl;
    [|split; [done|by intros (? & ? & _)]].
  destruct (String.eqb_spec (trim content) "") as [Hs|Hs].
  { split; [|done]. intros _. exists content. by rewrite <- trim_empty. }
  split; [|intros (? & [= <-] & ?%trim_empty); done].
  intros Hsave. exfalso.
  destruct (match truthy (ModalTask.id mt) with
            | Some id => _
            | None => _
            end) as [st'|]; simpl in Hsave; [|done].
  injection Hsave as Hsave. apply (f_equal modalTask) in Hsave.
  simpl in Hsave. congruence.
Qed.

Lemma save_ignored_iff_all_white_space_witness :
  handleModalSave 0
    (editing initial_board (ModalTask.mk None (Some "   ") "todo"))
  = Ok (editing initial_board (ModalTask.mk None (Some "   ") "todo")).
Proof.
  apply (save_ignored_iff_all_white_space _
           (ModalTask.mk None (Some "   ") "todo")); [reflexivity|].
  by exists "   ".
Defined.

(** X18.  Of two edits of one task the last wins: for a non-empty task id
    and contents that are not blank, editing to [first] and then to [second]
    gives the board a single edit to [second] gives. *)
Theorem last_edit_wins b taskId first second columnId now :
  taskId ≠ "" → trim first ≠ "" → trim second ≠ "" →
  ∃ b1, editTask b taskId first columnId now = Ok b1
        ∧ editTask b1 taskId second columnId now
          = editTask b taskId second columnId now.
Proof.
  intros Hid H1 H2.
  exists (with_tasks b
            (<[taskId := Task.mk (tasks b !! taskId ≫= Task.id) first]>
               (tasks b))).
  rewrite !editTask_eq.
  rewrite (trim_nonblank_eqb _ H1), (trim_nonblank_eqb _ H2).
  destruct (String.eqb_spec taskId "") as [|_]; [done|].
  split; [done|]. unfold edit_updater, with_tasks, with_tasks_columns. simpl.
  rewrite lookup_insert_eq, insert_insert_eq. simpl.
  by destruct (tasks b !! taskId).
Qed.

Lemma last_edit_wins_witness :
  ∃ b1, editTask board_abc "b" "one" "todo" 0 = Ok b1
        ∧ editTask b1 "b" "two" "todo" 0
          = editTask board_abc "b" "two" "todo" 0.
Proof.
  apply (last_edit_wins board_abc "b" "one" "two" "todo" 0); done.
Defined.

(** ** Every task is shown once *)

Lemma render_cards_draggableIds b (ids : list string) cards :
  tasks_filed_ok b → (∀ t, t ∈ ids → is_Some (tasks b !! t)) →
  array_map (render_card b) 0 ids = Ok cards →
  Card.draggableId <$> cards = Some <$> ids.
Proof.
  intros Hfiled Hknown Hcards. apply list_eq. intros i.
  rewrite !list_lookup_fmap.
  destruct (cards !! i) as [card|] eqn:Hcard; simpl.
  - destruct (array_map_lookup _ _ _ _ _ Hcards Hcard)
      as (t & Ht & [(task & Htask & ->)|(Hnone & _)]%render_card_Ok).
    + rewrite Ht. simpl. by rewrite (Hfiled _ _ Htask).
    + destruct (Hknown t) as [task Htask];
        [by eapply list_elem_of_lookup_2|congruence].
  - apply array_map_Ok in Hcards as [Hlen _].
    rewrite (proj2 (lookup_ge_None ids i)); [done|].
    rewrite <- Hlen. by apply lookup_ge_None.
Qed.

Lemma render_view_of_column b views cv :
  invariant1 b → column_ids_ok b → tasks_filed_ok b →
  render b = Ok views → cv ∈ views →
  ∃ col, ColumnView.droppableId cv ∈ columnOrder b
         ∧ columns b !! ColumnView.droppableId cv = Some col
         ∧ render_column b (ColumnView.droppableId cv) 0 = Ok cv
         ∧ Card.draggableId <$> ColumnView.cards cv
           = Some <$> Column.taskIds col.
Proof.
  intros Hinv1 Hids Hfiled Hrender [j Hcv]%list_elem_of_lookup.
  destruct (array_map_lookup _ _ _ _ _ Hrender Hcv) as (k & Hk & Hcol).
  pose proof Hcol as (col & cards & Hlook & Hcards & ->)%render_column_Ok.
  simpl. rewrite (Hids _ _ Hlook) in Hcol |- *. exists col.
  split_and!; [by eapply list_elem_of_lookup_2|done|exact Hcol|].
  eapply render_cards_draggableIds; [done| |done].
  intros t Ht. by eapply Hinv1.
Qed.

(** X19.  On a board that satisfies the invariants and files columns and
    tasks under their ids, what [render] shows has every task exactly once:
    no [draggableId] (React key) occurs twice among the cards of all
    columns, and an id is on a card if and only if it is a key of
    [tasks]. *)
Theorem every_task_shown_once b views :
  invariants b → column_ids_ok b → tasks_filed_ok b →
  render b = Ok views →
  NoDup (shown_ids views)
  ∧ (None ∉ shown_ids views)
  ∧ ∀ t, Some t ∈ shown_ids views ↔ is_Some (tasks b !! t).
Proof.
  intros Hinv Hids Hfiled Hrender.
  pose proof (proj2 (well_formed_invariants b) Hinv)
    as [H1 Hnd Hone Hex [Hnd3 Hperm]].
  pose proof (λ cv, render_view_of_column b views cv (proj1 Hinv) Hids Hfiled
                      Hrender) as Hview.
  unfold shown_ids. split_and!.
  - apply NoDup_bind.
    + intros cv1 cv2 y
        (c1 & _ & Hc1 & Hr1 & Hy1)%Hview (c2 & _ & Hc2 & Hr2 & Hy2)%Hview;
        try done.
      rewrite Hy1. rewrite Hy2.
      intros (t & -> & Ht1)%list_elem_of_fmap
        (t' & [= <-] & Ht2)%list_elem_of_fmap.
      assert (ColumnView.droppableId cv1 = ColumnView.droppableId cv2) as Hk.
      { apply (Hone t); [by exists c1|by exists c2]. }
      rewrite Hk in Hr1. rewrite Hr1 in Hr2. by injection Hr2.
    + intros cv (col & _ & Hcol & _ & ->)%Hview; try done.
      apply NoDup_fmap_2; [apply _|by eauto].
    + apply (NoDup_fmap_1 ColumnView.droppableId).
      by rewrite (render_droppableIds _ _ Hids Hrender).
  - intros (cv & Hnone & (col & _ & _ & _ & Heq)%Hview)%list_elem_of_bind;
      try done.
    rewrite Heq in Hnone. by apply list_elem_of_fmap in Hnone as (? & ? & _).
  - intros t. rewrite list_elem_of_bind. split.
    + intros (cv & Ht & (col & _ & Hcol & _ & Heq)%Hview); try done.
      rewrite Heq in Ht. apply list_elem_of_fmap in Ht as (t' & [= <-] & Ht).
      apply (H1 t (ColumnView.droppableId cv)). by exists col.
    + intros [k [col [Hcol Ht]]]%Hex.
      assert (k ∈ columnOrder b) as [j Hj]%list_elem_of_lookup.
      { rewrite Hperm. apply elem_of_elements, elem_of_dom. by eexists. }
      pose proof Hrender as [_ Hall]%array_map_Ok.
      destruct (Hall j k Hj) as (cv & Hcv & Hlook). simpl in Hcv.
      exists cv. split; [|by eapply list_elem_of_lookup_2].
      apply render_column_Ok in Hcv as (col' & cards & Hcol' & Hcards & ->).
      simpl. simplify_eq.
      rewrite (render_cards_draggableIds b (Column.taskIds col) cards);
        [by apply list_elem_of_fmap_2|done| |done].
      intros t' Ht'. apply (H1 t' k). by exists col.
Qed.

Lemma every_task_shown_once_witness :
  NoDup (shown_ids (shown (after initial_board [first_create])))
  ∧ Some "task-1000" ∈ shown_ids (shown (after initial_board [first_create])).
Proof.
  destruct (every_task_shown_once (after initial_board [first_create])
              (shown (after initial_board [first_create])))
    as (Hnodup & _ & Hshown).
  - apply (invariants_kept_while_ids_fresh [first_create]).
    apply (steps_snoc _ initial_board [] initial_board first_create).
    + constructor.
    + split; [split; [by eexists|done]|reflexivity].
    + reflexivity.
  - by_computation.
  - by_computation.
  - reflexivity.
  - split; [exact Hnodup|]. apply Hshown. by eexists.
Defined.

(** ** Instances *)

Lemma render_succeeds_iff_renderable_witness :
  ∃ views, render initial_board = Ok views.
Proof.
  apply (proj2 (proj1 (render_succeeds_iff_renderable initial_board))).
  apply invariants_renderable, initial_board_invariants.
Defined.

Lemma operations_raise_iff_column_missing_witness :
  createTask initial_board "backlog" "x" 0 = Throw TypeError
  ∧ deleteTask initial_board "a" "backlog" = Throw TypeError
  ∧ moveTask board_abc "a" "todo" 0 "backlog" 0 = Throw TypeError.
Proof.
  destruct (operations_raise_iff_column_missing initial_board)
    as (Hcreate & _ & Hdelete & _).
  destruct (operations_raise_iff_column_missing board_abc)
    as (_ & _ & _ & Hmove).
  split_and!.
  - apply Hcreate. by split.
  - by apply Hdelete.
  - apply Hmove. split; [by intros [? _]|by right].
Defined.

Lemma new_task_modal_flow_witness :
  handleModalSave 0 (onChange "  " (openNewTaskModal "todo" (idle board_abc)))
  = Ok (onChange "  " (openNewTaskModal "todo" (idle board_abc))).
Proof.
  destruct (new_task_modal_flow (idle board_abc) "todo" "  " 0)
    as (_ & Hblank & _).
  by apply Hblank.
Defined.
